(** * ma-todo-list: the task list and its synchronisation with the store

    A shallow embedding of [src/App.tsx]: the task record, the event
    handlers of the [App] component ([addTask], [deleteTask],
    [toggleComplete], [clearAllTasks], the snapshot callback), the display
    order [sortedTasks], and the two saving effects guarded by
    [isInitialLoadDone].

    Conventions.
    - A JavaScript string is the list of its UTF-16 code units.
    - A JavaScript number that holds an index or a [Date.now()] timestamp is
      an integer of [Z]; [findIndex] answers [-1] when nothing matches.
    - A handler is the list of state setters it calls; React applies them in
      one batch, renders, and runs the effects whose dependencies changed. *)

From stdpp Require Import gmap strings list sorting.
From Stdlib Require Import ZArith Lia.

Local Open Scope Z_scope.

(** ** The built-ins of the language that the component uses *)

Module JS.

(** A string as its UTF-16 code units. *)
Definition jsstring := list N.

(** An ASCII literal as a JavaScript string. *)
Definition of_string (s : string) : jsstring :=
  (fun a => Ascii.N_of_ascii a) <$> String.list_ascii_of_string s.

(** ECMAScript WhiteSpace and LineTerminator code points, the characters
    that [String.prototype.trim] strips.  All of them are in the basic
    plane, so each is one code unit. *)
Definition isWhiteSpace (c : N) : bool :=
  ((c =? 0x09) || (c =? 0x0A) || (c =? 0x0B) || (c =? 0x0C) || (c =? 0x0D)
   || (c =? 0x20) || (c =? 0xA0) || (c =? 0x1680)
   || ((0x2000 <=? c) && (c <=? 0x200A))
   || (c =? 0x2028) || (c =? 0x2029) || (c =? 0x202F) || (c =? 0x205F)
   || (c =? 0x3000) || (c =? 0xFEFF))%N.

Fixpoint trimStart (s : jsstring) : jsstring :=
  match s with
  | [] => []
  | c :: s' => if isWhiteSpace c then trimStart s' else s
  end.

Definition trimEnd (s : jsstring) : jsstring :=
  reverse (trimStart (reverse s)).

(** [s.trim()] *)
Definition trim (s : jsstring) : jsstring := trimEnd (trimStart s).

Section Arrays.
Context {A B : Type}.

(** [l.filter((x, i) => p x i)], the index counted from [i]. *)
Fixpoint filter_from (p : A -> Z -> bool) (i : Z) (l : list A) : list A :=
  match l with
  | [] => []
  | x :: l' =>
      if p x i then x :: filter_from p (i + 1) l'
      else filter_from p (i + 1) l'
  end.

Definition filter (p : A -> Z -> bool) (l : list A) : list A :=
  filter_from p 0 l.

(** [l.map((x, i) => f x i)] *)
Fixpoint map_from (f : A -> Z -> B) (i : Z) (l : list A) : list B :=
  match l with
  | [] => []
  | x :: l' => f x i :: map_from f (i + 1) l'
  end.

Definition map (f : A -> Z -> B) (l : list A) : list B := map_from f 0 l.

(** [l.findIndex(p)]: the first index whose element satisfies [p], or
    [-1]. *)
Fixpoint findIndex_from (p : A -> bool) (i : Z) (l : list A) : Z :=
  match l with
  | [] => -1
  | x :: l' => if p x then i else findIndex_from p (i + 1) l'
  end.

Definition findIndex (p : A -> bool) (l : list A) : Z :=
  findIndex_from p 0 l.

(** [Array.prototype.sort] with a comparator: [a] is placed before [b]
    when [cmp a b < 0], after it when [cmp a b > 0], and elements that
    compare as [0] keep their order (the sort is stable since
    ECMAScript 2019).  For a consistent comparator this fixes the
    result, whatever the engine's algorithm ([sort_unique] below); the
    model inserts from the right. *)
Fixpoint insert (cmp : A -> A -> Z) (x : A) (l : list A) : list A :=
  match l with
  | [] => [x]
  | y :: l' => if 0 <? cmp x y then y :: insert cmp x l' else x :: l
  end.

Fixpoint sort (cmp : A -> A -> Z) (l : list A) : list A :=
  match l with
  | [] => []
  | x :: l' => insert cmp x (sort cmp l')
  end.
End Arrays.

End JS.

(** ** Data model *)

(** [type Priority = 'high' | 'medium' | 'low'] *)
Inductive Priority := high | medium | low.

#[export] Instance Priority_eq_dec : EqDecision Priority.
Proof. solve_decision. Defined.

(** [interface Task] *)
Record Task := mkTask {
  text : JS.jsstring;
  completed : bool;
  priority : Priority;
  createdAt : Z
}.

#[export] Instance Task_eq_dec : EqDecision Task.
Proof. solve_decision. Defined.

(** The [preferences] field of a user document; [darkMode] may be missing. *)
Record Preferences := mkPreferences {
  pref_darkMode : option bool
}.

(** What a document of [users/{uid}] holds, or the payload of a write: each
    top-level field is present or not.  [dd_other] stands for the fields
    the component never reads. *)
Record DocData := mkDocData {
  dd_tasks : option (list Task);
  dd_preferences : option Preferences;
  dd_other : gmap string string
}.

(** The state of the component: one field per [useState] of [App].  The
    priority chosen in the form is [priority] in the source; here it is
    [newPriority], since [priority] is the field of [Task]. *)
Record AppState := mkAppState {
  tasks : list Task;
  newTask : JS.jsstring;
  newPriority : Priority;
  userId : option string;
  loading : bool;
  isInitialLoadDone : bool;
  darkMode : bool
}.

(** A call of a state setter, or of the sign-in request. *)
Inductive Update :=
| SetTasks (l : list Task)
| SetNewTask (s : JS.jsstring)
| SetPriority (p : Priority)
| SetUserId (u : string)
| SetLoading (b : bool)
| SetIsInitialLoadDone (b : bool)
| SetDarkMode (b : bool)
| SignInAnonymously.

(** [setDoc(doc(db, "users", uid), payload, { merge })] *)
Record Write := mkWrite {
  w_uid : string;
  w_payload : DocData;
  w_merge : bool
}.

(** ** Handlers *)

(** [const prioOrder = { high: 3, medium: 2, low: 1 }] *)
Definition prioOrder (p : Priority) : Z :=
  match p with high => 3 | medium => 2 | low => 1 end.

(** The comparator of [sortedTasks]. *)
Definition compareTasks (a b : Task) : Z :=
  let prioDiff := prioOrder (priority b) - prioOrder (priority a) in
  if negb (prioDiff =? 0) then prioDiff else createdAt b - createdAt a.

(** [const sortedTasks = [...tasks].sort(...)] *)
Definition sortedTasks (l : list Task) : list Task :=
  JS.sort compareTasks l.

(** [tasks.findIndex(t => t.createdAt === task.createdAt)] *)
Definition originalIndex (l : list Task) (task : Task) : Z :=
  JS.findIndex (fun t => createdAt t =? createdAt task) l.

Definition addTask (now : Z) (st : AppState) : list Update :=
  match JS.trim (newTask st) with
  | [] => []
  | trimmed =>
      [ SetTasks (tasks st ++ [mkTask trimmed false (newPriority st) now]);
        SetNewTask [];
        SetPriority medium ]
  end.

(** The array that [deleteTask] passes to [setTasks]. *)
Definition remove (l : list Task) (index : Z) : list Task :=
  JS.filter (fun _ i => negb (i =? index)) l.

Definition deleteTask (index : Z) (st : AppState) : list Update :=
  [ SetTasks (remove (tasks st) index) ].

(** [{ ...task, completed: !task.completed }] *)
Definition flipCompleted (task : Task) : Task :=
  mkTask (text task) (negb (completed task)) (priority task) (createdAt task).

(** The array that [toggleComplete] passes to [setTasks]. *)
Definition toggle (l : list Task) (index : Z) : list Task :=
  JS.map (fun task i => if i =? index then flipCompleted task else task) l.

Definition toggleComplete (index : Z) (st : AppState) : list Update :=
  [ SetTasks (toggle (tasks st) index) ].

(** [confirmed] is the answer of [window.confirm]. *)
Definition clearAllTasks (confirmed : bool) (st : AppState) : list Update :=
  if confirmed then [ SetTasks [] ] else [].

(** The theme button: [onClick={() => setDarkMode(!darkMode)}] *)
Definition toggleDarkMode (st : AppState) : list Update :=
  [ SetDarkMode (negb (darkMode st)) ].

(** [if (!userId)]: [null] and the empty string are falsy. *)
Definition truthy (u : option string) : bool :=
  match u with
  | None => false
  | Some s => negb (bool_decide (s = EmptyString))
  end.

(** The identity whose document the component listens to: the snapshot
    effect subscribes to [users/{userId}] when [userId] is truthy, and its
    cleanup unsubscribes when [userId] changes. *)
Definition subscription (st : AppState) : option string :=
  if truthy (userId st) then userId st else None.

(** [data.preferences?.darkMode]; [None] is [undefined]. *)
Definition snapshotDarkMode (data : DocData) : option bool :=
  dd_preferences data ≫= pref_darkMode.

(** The callback given to [onSnapshot]; [docSnap] is [None] when
    [docSnap.exists()] is false. *)
Definition onSnapshotCallback (docSnap : option DocData) : list Update :=
  match docSnap with
  | Some data =>
      SetTasks (default [] (dd_tasks data))
      :: match snapshotDarkMode data with
         | Some b => [ SetDarkMode b ]
         | None => []
         end
  | None => [ SetTasks [] ]
  end
  ++ [ SetLoading false; SetIsInitialLoadDone true ].

(** The callback given to [onAuthStateChanged]. *)
Definition onAuthCallback (user : option string) : list Update :=
  match user with
  | Some uid => [ SetUserId uid ]
  | None => [ SignInAnonymously ]
  end.

(** What can happen to the mounted component.  The delete button and the
    check box of a displayed task call their handler with
    [originalIndex]. *)
Inductive Event :=
| AuthStateChanged (user : option string)
| Snapshot (uid : string) (docSnap : option DocData)
| ChangeNewTask (s : JS.jsstring)
| ChangePriority (p : Priority)
| ClickAdd (now : Z)
| ClickDelete (task : Task)
| ClickToggle (task : Task)
| ClickClearAll (confirmed : bool)
| ClickTheme.

(** The setters an event calls.  A snapshot reaches the callback only
    through the open subscription.  (The form and the list are rendered
    only when [loading] is false; the handlers are modelled without that
    restriction, which only adds behaviours.) *)
Definition handle (st : AppState) (ev : Event) : list Update :=
  match ev with
  | AuthStateChanged user => onAuthCallback user
  | Snapshot uid docSnap =>
      if bool_decide (subscription st = Some uid)
      then onSnapshotCallback docSnap else []
  | ChangeNewTask s => [ SetNewTask s ]
  | ChangePriority p => [ SetPriority p ]
  | ClickAdd now => addTask now st
  | ClickDelete task => deleteTask (originalIndex (tasks st) task) st
  | ClickToggle task => toggleComplete (originalIndex (tasks st) task) st
  | ClickClearAll confirmed => clearAllTasks confirmed st
  | ClickTheme => toggleDarkMode st
  end.

Definition apply_update (st : AppState) (u : Update) : AppState :=
  match u with
  | SetTasks l =>
      mkAppState l (newTask st) (newPriority st) (userId st) (loading st)
                 (isInitialLoadDone st) (darkMode st)
  | SetNewTask s =>
      mkAppState (tasks st) s (newPriority st) (userId st) (loading st)
                 (isInitialLoadDone st) (darkMode st)
  | SetPriority p =>
      mkAppState (tasks st) (newTask st) p (userId st) (loading st)
                 (isInitialLoadDone st) (darkMode st)
  | SetUserId u =>
      mkAppState (tasks st) (newTask st) (newPriority st) (Some u) (loading st)
                 (isInitialLoadDone st) (darkMode st)
  | SetLoading b =>
      mkAppState (tasks st) (newTask st) (newPriority st) (userId st) b
                 (isInitialLoadDone st) (darkMode st)
  | SetIsInitialLoadDone b =>
      mkAppState (tasks st) (newTask st) (newPriority st) (userId st)
                 (loading st) b (darkMode st)
  | SetDarkMode b =>
      mkAppState (tasks st) (newTask st) (newPriority st) (userId st)
                 (loading st) (isInitialLoadDone st) b
  | SignInAnonymously => st
  end.

Definition apply_updates (st : AppState) (ups : list Update) : AppState :=
  foldl apply_update st ups.

Definition is_SetTasks (u : Update) : bool :=
  match u with SetTasks _ => true | _ => false end.

(** ** Effects *)

(** The payload [{ tasks }]. *)
Definition tasksPayload (l : list Task) : DocData :=
  mkDocData (Some l) None ∅.

(** The payload [{ preferences: { darkMode } }]. *)
Definition preferencesPayload (b : bool) : DocData :=
  mkDocData None (Some (mkPreferences (Some b))) ∅.

(** The effect "Sauvegarde des tâches", run with the state [st]. *)
Definition saveTasksEffect (st : AppState) : list Write :=
  match userId st with
  | Some uid =>
      if negb (truthy (userId st)) || negb (isInitialLoadDone st) then []
      else [ mkWrite uid (tasksPayload (tasks st)) true ]
  | None => []
  end.

(** The effect "Sauvegarde des préférences", run with the state [st]. *)
Definition savePreferencesEffect (st : AppState) : list Write :=
  match userId st with
  | Some uid =>
      if negb (truthy (userId st)) || negb (isInitialLoadDone st) then []
      else [ mkWrite uid (preferencesPayload (darkMode st)) true ]
  | None => []
  end.

(** The effects that run after the render that follows a batch [ups] of
    setter calls, which took the state from [old] to [new].  An effect runs
    when one of its dependencies changed: a primitive by value, the [tasks]
    array by reference, and every [setTasks] of the component passes a
    fresh array. *)
Definition effects (old new : AppState) (ups : list Update) : list Write :=
  let tasksChanged := existsb is_SetTasks ups in
  let userIdChanged := negb (bool_decide (userId old = userId new)) in
  let loadDoneChanged :=
    negb (bool_decide (isInitialLoadDone old = isInitialLoadDone new)) in
  let darkModeChanged := negb (bool_decide (darkMode old = darkMode new)) in
  (if tasksChanged || userIdChanged || loadDoneChanged
   then saveTasksEffect new else [])
  ++ (if darkModeChanged || userIdChanged || loadDoneChanged
      then savePreferencesEffect new else []).

(** The snapshot effect (dependency [userId]) calls [setLoading(true)]
    before it subscribes; [loading] is a dependency of no effect. *)
Definition afterEffects (old new : AppState) : AppState :=
  if negb (bool_decide (userId old = userId new)) && truthy (userId new)
  then apply_update new (SetLoading true) else new.

(** One event: the handler, the render, the effects. *)
Definition step (st : AppState) (ev : Event) : AppState * list Write :=
  let ups := handle st ev in
  let new := apply_updates st ups in
  (afterEffects st new, effects st new ups).

(** A sequence of events, with the writes issued on the way. *)
Fixpoint run (st : AppState) (evs : list Event) : AppState * list Write :=
  match evs with
  | [] => (st, [])
  | ev :: evs' =>
      let '(st1, ws1) := step st ev in
      let '(st2, ws2) := run st1 evs' in
      (st2, ws1 ++ ws2)
  end.

(** The state after mounting; [saved] is the theme read from local
    storage.  No identity is known yet, so the effects of the first render
    write nothing. *)
Definition initialState (saved : bool) : AppState :=
  mkAppState [] [] medium None true false saved.

(** ** The document store *)

Definition emptyDoc : DocData := mkDocData None None ∅.

(** The document under [uid]; a document that does not exist has no
    field. *)
Definition docOf (store : gmap string DocData) (uid : string) : DocData :=
  default emptyDoc (store !! uid).

(** Modelled from the spec: the store's [write(key, partialFields,
    merge=true)] of the Document Store contract ([setDoc] of the Firestore
    client, which is not part of the sources): a field of the payload
    replaces the field of the document, the other fields are kept. *)
Definition mergeFields (payload old : DocData) : DocData :=
  mkDocData
    (match dd_tasks payload with Some l => Some l | None => dd_tasks old end)
    (match dd_preferences payload with
     | Some p => Some p
     | None => dd_preferences old
     end)
    (dd_other payload ∪ dd_other old).

Definition setDoc (store : gmap string DocData) (w : Write)
  : gmap string DocData :=
  if w_merge w
  then <[w_uid w := mergeFields (w_payload w) (docOf store (w_uid w))]> store
  else <[w_uid w := w_payload w]> store.

(** ** Order

    For a comparator [cmp], [x] may stand before [y]. *)
Definition comparedBefore {A : Type} (cmp : A -> A -> Z) (x y : A) : Prop :=
  cmp x y <= 0.

(** ** The display order as the specification words it *)

(** [a] may be displayed before [b]: a higher priority first, and for one
    priority the more recent first. *)
Definition displayedBefore (a b : Task) : Prop :=
  prioOrder (priority a) > prioOrder (priority b)
  \/ (priority a = priority b /\ createdAt a >= createdAt b).

(** ** Arrays as shared objects

    [Array.prototype.sort] sorts the array it is called on and answers that
    same array; the spread [[...tasks]] allocates a copy.  The arrays live
    in a heap, by reference. *)

(** [[...a]]: a fresh array with the elements of [a]. *)
Definition spread (h : gmap positive (list Task)) (a : positive)
  : gmap positive (list Task) * positive :=
  let c := fresh (dom h) in
  (<[c := default [] (h !! a)]> h, c).

(** [a.sort(cmp)]: in place. *)
Definition sortInPlace (cmp : Task -> Task -> Z)
    (h : gmap positive (list Task)) (a : positive)
  : gmap positive (list Task) * positive :=
  (alter (JS.sort cmp) a h, a).

(** [const sortedTasks = [...tasks].sort(...)], with [tasks] the array at
    [tasksRef]. *)
Definition sortedTasksRef (h : gmap positive (list Task)) (tasksRef : positive)
  : gmap positive (list Task) * positive :=
  let '(h1, c) := spread h tasksRef in
  sortInPlace compareTasks h1 c.

(** ** Runs under one identity *)

(** An event of the user, as opposed to one of the identity provider or of
    the store. *)
Definition isLocalMutation (ev : Event) : bool :=
  match ev with
  | AuthStateChanged _ | Snapshot _ _ => false
  | _ => true
  end.

(** Every identity that the provider announces in [evs] is [uid]. *)
Definition one_identity (uid : string) (evs : list Event) : Prop :=
  forall u, AuthStateChanged (Some u) ∈ evs -> u = uid.

(** Nothing is loaded yet, and the identity is absent or [uid]. *)
Definition notLoadedFor (uid : string) (st : AppState) : Prop :=
  isInitialLoadDone st = false
  /\ (userId st = None \/ userId st = Some uid).

(** ** Counters, rows and controls of the page *)

(** [const totalTasks = tasks.length] *)
Definition totalTasks (l : list Task) : Z := Z.of_nat (length l).

(** [const completedTasks = tasks.filter(t => t.completed).length] *)
Definition completedTasks (l : list Task) : Z :=
  Z.of_nat (length (JS.filter (fun t _ => completed t) l)).

(** [const remainingTasks = totalTasks - completedTasks] *)
Definition remainingTasks (l : list Task) : Z :=
  totalTasks l - completedTasks l.

(** The rows of the list, [sortedTasks.map((task) => ...)]: each task with
    the [originalIndex] that its check box and its delete button pass to
    [toggleComplete] and [deleteTask]. *)
Definition displayedItems (l : list Task) : list (Task * Z) :=
  JS.map (fun task _ => (task, originalIndex l task)) (sortedTasks l).

(** The control that raises [ev] is on the page.  The theme button always
    is; the form, the rows and the footer are there when [loading] is
    false; a row is there for each task of [sortedTasks]; the button that
    clears the list is there when [totalTasks > 0].  The callbacks of the
    identity provider and of the store are not controls. *)
Definition rendered (st : AppState) (ev : Event) : bool :=
  match ev with
  | AuthStateChanged _ | Snapshot _ _ => true
  | ClickTheme => true
  | ChangeNewTask _ | ChangePriority _ | ClickAdd _ => negb (loading st)
  | ClickDelete task | ClickToggle task =>
      negb (loading st) && bool_decide (task ∈ sortedTasks (tasks st))
  | ClickClearAll _ => negb (loading st) && (0 <? totalTasks (tasks st))
  end.

(** Every event of the run comes from a control that is on the page when
    it happens. *)
Fixpoint renderedRun (st : AppState) (evs : list Event) : bool :=
  match evs with
  | [] => true
  | ev :: evs' => rendered st ev && renderedRun (step st ev).1 evs'
  end.

(** A state that the mounted component can be in. *)
Definition reachable (st : AppState) : Prop :=
  exists saved evs, st = (run (initialState saved) evs).1.

(** The identity is [uid] and the first snapshot has been processed: the
    guard of the two saving effects lets them through. *)
Definition loadedFor (uid : string) (st : AppState) : Prop :=
  userId st = Some uid
  /\ truthy (userId st) = true
  /\ isInitialLoadDone st = true.

(** The page shows the spinner unless the first snapshot was processed,
    and until then the list and the form are as at mount. *)
Definition asMounted (st : AppState) : Prop :=
  (loading st = false -> isInitialLoadDone st = true)
  /\ (isInitialLoadDone st = false ->
      tasks st = [] /\ newTask st = [] /\ newPriority st = medium).

(** ** The theme outside the component *)









(** Applying the writes of a run to the store, in order. *)
Definition applyWrites (store : gmap string DocData) (ws : list Write)
  : gmap string DocData :=
  foldl setDoc store ws.

(** ** Sample values *)

Definition sampleTasks : list Task :=
  [ mkTask (JS.of_string "a") false low 50;
    mkTask (JS.of_string "b") true high 10 ].

Definition sampleState : AppState :=
  mkAppState sampleTasks (JS.of_string " Buy milk ") high
             (Some "u1"%string) false true false.

Definition blankState : AppState :=
  mkAppState sampleTasks (JS.of_string "   ") high
             (Some "u1"%string) false true false.

Definition sampleDoc : DocData :=
  mkDocData (Some sampleTasks) (Some (mkPreferences (Some true)))
            {[ "theme"%string := "blue"%string ]}.

(** * Properties *)

(** ** The component at work *)

Example run_buy_milk :
  run (initialState false)
      [ AuthStateChanged (Some "u1"%string);
        Snapshot "u1" None;
        ChangeNewTask (JS.of_string " Buy milk ");
        ChangePriority high;
        ClickAdd 1700 ]
  = (mkAppState [mkTask (JS.of_string "Buy milk") false high 1700]
                [] medium (Some "u1"%string) false true false,
     [ mkWrite "u1" (tasksPayload []) true;
       mkWrite "u1" (preferencesPayload false) true;
       mkWrite "u1"
         (tasksPayload [mkTask (JS.of_string "Buy milk") false high 1700])
         true ]).
Proof. vm_compute. reflexivity. Qed.

Example run_theme_before_snapshot :
  (run (initialState false)
       [ AuthStateChanged (Some "u1"%string); ClickTheme ]).2 = []
  /\ (run (initialState false)
          [ AuthStateChanged (Some "u1"%string); ClickTheme;
            Snapshot "u1" None; ClickTheme ]).2
     = [ mkWrite "u1" (tasksPayload []) true;
         mkWrite "u1" (preferencesPayload true) true;
         mkWrite "u1" (preferencesPayload false) true ].
Proof. split; vm_compute; reflexivity. Qed.

(** ** Arrays: [filter], [map] and [findIndex] by index *)

Section ArrayFacts.
Context {A : Type}.
Implicit Types (l : list A) (i index : Z) (n : nat).

Lemma filter_from_out_of_range l i index :
  index < i \/ i + Z.of_nat (length l) <= index ->
  JS.filter_from (fun _ j => negb (j =? index)) i l = l.
Proof.
  revert i. induction l as [|x l IH]; intros i H; [done|].
  rewrite length_cons, Nat2Z.inj_succ in H. cbn [JS.filter_from].
  destruct (Z.eqb_spec i index); [lia|]. cbn [negb].
  f_equal. apply IH. lia.
Qed.

Lemma filter_from_delete l i n :
  JS.filter_from (fun _ j => negb (j =? i + Z.of_nat n)) i l = delete n l.
Proof.
  revert i n. induction l as [|x l IH]; intros i n; [done|].
  cbn [JS.filter_from]. destruct n as [|n].
  - change (Z.of_nat 0) with 0. rewrite Z.add_0_r, Z.eqb_refl. cbn [negb].
    apply filter_from_out_of_range. lia.
  - rewrite Nat2Z.inj_succ.
    destruct (Z.eqb_spec i (i + Z.succ (Z.of_nat n))); [lia|]. cbn [negb].
    change (delete (S n) (x :: l)) with (x :: delete n l).
    f_equal. rewrite <- (IH (i + 1) n). f_equal.
    replace (i + 1 + Z.of_nat n) with (i + Z.succ (Z.of_nat n)) by lia.
    done.
Qed.

Lemma map_from_out_of_range (f : A -> A) l i index :
  index < i \/ i + Z.of_nat (length l) <= index ->
  JS.map_from (fun x j => if j =? index then f x else x) i l = l.
Proof.
  revert i. induction l as [|x l IH]; intros i H; [done|].
  rewrite length_cons, Nat2Z.inj_succ in H. cbn [JS.map_from].
  destruct (Z.eqb_spec i index); [lia|].
  f_equal. apply IH. lia.
Qed.

Lemma map_from_alter (f : A -> A) l i n :
  JS.map_from (fun x j => if j =? i + Z.of_nat n then f x else x) i l
  = alter f n l.
Proof.
  revert i n. induction l as [|x l IH]; intros i n; [done|].
  cbn [JS.map_from]. destruct n as [|n].
  - change (Z.of_nat 0) with 0. rewrite Z.add_0_r, Z.eqb_refl.
    change (alter f 0%nat (x :: l)) with (f x :: l).
    f_equal. apply map_from_out_of_range. lia.
  - rewrite Nat2Z.inj_succ.
    destruct (Z.eqb_spec i (i + Z.succ (Z.of_nat n))); [lia|].
    change (alter f (S n) (x :: l)) with (x :: alter f n l).
    f_equal. rewrite <- (IH (i + 1) n). f_equal.
    replace (i + 1 + Z.of_nat n) with (i + Z.succ (Z.of_nat n)) by lia.
    done.
Qed.

(** [findIndex] answers the position of the first match. *)
Lemma findIndex_from_found (p : A -> bool) l1 x l2 i :
  Forall (fun y => p y = false) l1 -> p x = true ->
  JS.findIndex_from p i (l1 ++ x :: l2) = i + Z.of_nat (length l1).
Proof.
  intros Hl1 Hx. revert i.
  induction Hl1 as [|y l1 Hy _ IH]; intros i.
  - cbn [app JS.findIndex_from length]. rewrite Hx. lia.
  - cbn [app JS.findIndex_from]. rewrite Hy, IH, length_cons. lia.
Qed.

Lemma findIndex_from_none (p : A -> bool) l i :
  Forall (fun y => p y = false) l -> JS.findIndex_from p i l = -1.
Proof.
  intros Hl. revert i. induction Hl as [|y l Hy _ IH]; intros i.
  - done.
  - cbn [JS.findIndex_from]. by rewrite Hy, IH.
Qed.
End ArrayFacts.

(** ** [remove] and [toggle] on the task list *)

Lemma remove_delete (l : list Task) (n : nat) :
  remove l (Z.of_nat n) = delete n l.
Proof. unfold remove, JS.filter. apply (filter_from_delete l 0 n). Qed.

Lemma toggle_alter (l : list Task) (n : nat) :
  toggle l (Z.of_nat n) = alter flipCompleted n l.
Proof. unfold toggle, JS.map. apply (map_from_alter flipCompleted l 0 n). Qed.

Lemma remove_out_of_range (l : list Task) (index : Z) :
  index < 0 \/ Z.of_nat (length l) <= index -> remove l index = l.
Proof. intros H. apply filter_from_out_of_range. lia. Qed.

Lemma toggle_out_of_range (l : list Task) (index : Z) :
  index < 0 \/ Z.of_nat (length l) <= index -> toggle l index = l.
Proof.
  intros H. unfold toggle, JS.map.
  apply (map_from_out_of_range flipCompleted). lia.
Qed.

Lemma flipCompleted_involutive (task : Task) :
  flipCompleted (flipCompleted task) = task.
Proof.
  destruct task as [t c p ts]. unfold flipCompleted. simpl.
  by rewrite negb_involutive.
Qed.

(** ** [Array.prototype.sort] with a consistent comparator *)

Section SortFacts.
Context {A : Type} (cmp : A -> A -> Z).
Implicit Types (x y z : A) (l : list A).

Lemma insert_Permutation x l : JS.insert cmp x l ≡ₚ x :: l.
Proof.
  induction l as [|y l IH]; [done|]. cbn [JS.insert].
  destruct (0 <? cmp x y); [|done].
  rewrite IH. apply Permutation_swap.
Qed.

Lemma sort_Permutation l : JS.sort cmp l ≡ₚ l.
Proof.
  induction l as [|x l IH]; [done|]. cbn [JS.sort].
  by rewrite insert_Permutation, IH.
Qed.

(** Elements of one class of the comparator keep their order. *)
Lemma insert_filter (P : A -> Prop) `{!forall x, Decision (P x)} x l :
  (forall y z, P y -> P z -> cmp y z <= 0) ->
  filter P (JS.insert cmp x l) = filter P (x :: l).
Proof.
  intros HP. induction l as [|y l IH]; [done|]. cbn [JS.insert].
  destruct (Z.ltb_spec 0 (cmp x y)) as [Hlt|Hle]; [|done].
  rewrite (filter_cons _ y), IH, !filter_cons.
  destruct (decide (P x)) as [Hx|Hx], (decide (P y)) as [Hy|Hy]; try done.
  specialize (HP x y Hx Hy). lia.
Qed.

Lemma sort_filter (P : A -> Prop) `{!forall x, Decision (P x)} l :
  (forall y z, P y -> P z -> cmp y z <= 0) ->
  filter P (JS.sort cmp l) = filter P l.
Proof.
  intros HP. induction l as [|x l IH]; [done|]. cbn [JS.sort].
  rewrite insert_filter by done. by rewrite !filter_cons, IH.
Qed.

(** The comparator is consistent: swapping the arguments swaps the sign,
    and "not after" is transitive. *)
Hypothesis cmp_sign : forall x y, 0 < cmp x y <-> cmp y x < 0.
Hypothesis cmp_trans :
  forall x y z, cmp x y <= 0 -> cmp y z <= 0 -> cmp x z <= 0.

Lemma cmp_refl x : cmp x x = 0.
Proof. pose proof (cmp_sign x x). lia. Qed.

Lemma cmp_zero_sym x y : cmp x y = 0 -> cmp y x = 0.
Proof. pose proof (cmp_sign x y). pose proof (cmp_sign y x). lia. Qed.

Lemma cmp_class a y z : cmp a y = 0 -> cmp a z = 0 -> cmp y z <= 0.
Proof.
  intros Hy Hz. apply (cmp_trans y a z); [|lia].
  apply cmp_zero_sym in Hy. lia.
Qed.

Lemma insert_StronglySorted x l :
  StronglySorted (comparedBefore cmp) l ->
  StronglySorted (comparedBefore cmp) (JS.insert cmp x l).
Proof.
  induction 1 as [|y l Hl IH Hy]; cbn [JS.insert].
  - repeat constructor.
  - destruct (Z.ltb_spec 0 (cmp x y)) as [Hlt|Hle].
    + constructor; [done|].
      rewrite insert_Permutation. constructor; [|done].
      unfold comparedBefore. apply cmp_sign in Hlt. lia.
    + constructor; [by constructor|].
      constructor; [done|].
      eapply Forall_impl; [exact Hy|].
      intros z Hz. by apply (cmp_trans x y z).
Qed.

Lemma sort_StronglySorted l :
  StronglySorted (comparedBefore cmp) (JS.sort cmp l).
Proof.
  induction l as [|x l IH]; [constructor|].
  by apply insert_StronglySorted.
Qed.

Lemma sort_stable a l :
  filter (fun y => cmp a y = 0) (JS.sort cmp l)
  = filter (fun y => cmp a y = 0) l.
Proof. apply sort_filter. intros y z. apply cmp_class. Qed.

(** An ordered list in which every class keeps the order it has in
    another ordered list is that list. *)
Lemma StronglySorted_stable_eq l1 l2 :
  StronglySorted (comparedBefore cmp) l1 ->
  StronglySorted (comparedBefore cmp) l2 ->
  (forall a, filter (fun y => cmp a y = 0) l1
             = filter (fun y => cmp a y = 0) l2) ->
  l1 = l2.
Proof.
  intros H1. revert l2.
  induction H1 as [|x t1 Ht1 IH Hx]; intros l2 H2 Hf.
  - destruct l2 as [|y t2]; [done|].
    specialize (Hf y). rewrite filter_nil, filter_cons_True in Hf
      by apply cmp_refl. done.
  - destruct l2 as [|y t2].
    { specialize (Hf x). rewrite filter_nil, filter_cons_True in Hf
        by apply cmp_refl. done. }
    apply StronglySorted_inv in H2 as [Ht2 Hy].
    assert (Hyx : cmp y x <= 0).
    { assert (Hin : x ∈ filter (fun z => cmp x z = 0) (y :: t2)).
      { rewrite <- Hf, filter_cons_True by apply cmp_refl. left. }
      apply list_elem_of_filter in Hin as [_ Hin].
      apply elem_of_cons in Hin as [->|Hin]; [by rewrite cmp_refl|].
      rewrite Forall_forall in Hy. by apply Hy. }
    assert (Hxy : cmp x y <= 0).
    { assert (Hin : y ∈ filter (fun z => cmp y z = 0) (x :: t1)).
      { rewrite Hf, filter_cons_True by apply cmp_refl. left. }
      apply list_elem_of_filter in Hin as [_ Hin].
      apply elem_of_cons in Hin as [->|Hin]; [by rewrite cmp_refl|].
      rewrite Forall_forall in Hx. by apply Hx. }
    assert (H0 : cmp x y = 0).
    { pose proof (cmp_sign x y). pose proof (cmp_sign y x). lia. }
    assert (x = y) as <-.
    { pose proof (Hf x) as Hfx.
      rewrite !filter_cons_True in Hfx by (done || apply cmp_refl).
      congruence. }
    f_equal. apply IH; [done|]. intros a.
    specialize (Hf a). rewrite !filter_cons in Hf.
    destruct (decide (cmp a x = 0)); congruence.
Qed.

(** Whatever algorithm the engine uses, an ordered, stable arrangement of
    [l] is the one of the model. *)
Lemma sort_unique l l' :
  StronglySorted (comparedBefore cmp) l' ->
  (forall a, filter (fun y => cmp a y = 0) l'
             = filter (fun y => cmp a y = 0) l) ->
  l' = JS.sort cmp l.
Proof.
  intros Hs Hf. apply StronglySorted_stable_eq;
    [done|apply sort_StronglySorted|].
  intros a. by rewrite Hf, sort_stable.
Qed.
End SortFacts.

(** ** The display order *)

(** Unfold the comparator and decide the test on the priorities. *)
Ltac compareTasks_cases :=
  unfold compareTasks, displayedBefore, prioOrder in *;
  repeat match goal with
         | |- context [priority ?a] =>
             let E := fresh "E" in destruct (priority a) eqn:E
         end;
  repeat match goal with
         | |- context [negb (?x =? 0)] =>
             destruct (Z.eqb_spec x 0); cbn [negb]
         end.

Lemma compareTasks_sign (a b : Task) :
  0 < compareTasks a b <-> compareTasks b a < 0.
Proof. compareTasks_cases; lia. Qed.

Lemma compareTasks_le (a b : Task) :
  compareTasks a b <= 0 <-> displayedBefore a b.
Proof.
  compareTasks_cases; try lia;
    (split; [intros H; first [left; lia | right; split; [done|lia]]
            |intros [H|[H1 H2]]; first [lia | done]]).
Qed.

Lemma compareTasks_trans (a b c : Task) :
  compareTasks a b <= 0 -> compareTasks b c <= 0 -> compareTasks a c <= 0.
Proof. compareTasks_cases; lia. Qed.

Lemma compareTasks_zero (a b : Task) :
  compareTasks a b = 0 <-> priority a = priority b /\ createdAt a = createdAt b.
Proof.
  compareTasks_cases; try lia;
    (split; [intros H; first [lia | split; [done|lia]]
            |intros [H1 H2]; first [lia | done]]).
Qed.

Lemma sortedTasks_StronglySorted (l : list Task) :
  StronglySorted displayedBefore (sortedTasks l).
Proof.
  pose proof (sort_StronglySorted compareTasks compareTasks_sign
                compareTasks_trans l) as H.
  unfold sortedTasks.
  induction H as [|x t Ht IH Hx]; constructor; [done|].
  eapply Forall_impl; [exact Hx|]. intros y. apply compareTasks_le.
Qed.

Lemma sortedTasks_key_order (p : Priority) (ts : Z) (l : list Task) :
  filter (fun t => priority t = p /\ createdAt t = ts) (sortedTasks l)
  = filter (fun t => priority t = p /\ createdAt t = ts) l.
Proof.
  apply sort_filter. intros y z [Hy1 Hy2] [Hz1 Hz2].
  assert (compareTasks y z = 0); [|lia].
  apply compareTasks_zero. split; congruence.
Qed.

(** The model of [sort] does not matter: any arrangement of [l] that is in
    display order and keeps the order of the tasks of one priority and one
    timestamp is [sortedTasks l]. *)
Lemma sortedTasks_unique (l l' : list Task) :
  StronglySorted displayedBefore l' ->
  (forall p ts,
      filter (fun t => priority t = p /\ createdAt t = ts) l'
      = filter (fun t => priority t = p /\ createdAt t = ts) l) ->
  l' = sortedTasks l.
Proof.
  intros Hs Hf.
  apply (sort_unique compareTasks compareTasks_sign compareTasks_trans).
  - clear Hf. induction Hs as [|x t Ht IH Hx]; constructor; [done|].
    eapply Forall_impl; [exact Hx|]. intros y. apply compareTasks_le.
  - intros a.
    rewrite (list_filter_iff (fun y => compareTasks a y = 0)
               (fun t => priority t = priority a /\ createdAt t = createdAt a)).
    2:{ intros y. rewrite compareTasks_zero.
        split; intros [? ?]; split; congruence. }
    rewrite Hf. apply list_filter_iff.
    intros y. rewrite compareTasks_zero. split; intros [? ?]; split; congruence.
Qed.

Lemma sortedTasksRef_spec (h : gmap positive (list Task)) (a : positive)
    (l : list Task) :
  h !! a = Some l ->
  (sortedTasksRef h a).2 <> a
  /\ (sortedTasksRef h a).1 !! a = Some l
  /\ (sortedTasksRef h a).1 !! (sortedTasksRef h a).2 = Some (sortedTasks l).
Proof.
  intros Ha. unfold sortedTasksRef, spread, sortInPlace. cbn.
  assert (Hfresh : fresh (dom h) <> a).
  { intros Heq. apply (is_fresh (dom h)). rewrite Heq.
    apply elem_of_dom. eauto. }
  split; [done|]. split.
  - rewrite lookup_alter_ne by done. by rewrite lookup_insert_ne.
  - rewrite lookup_alter_eq, lookup_insert_eq, Ha. done.
Qed.

(** C2. [sortedTasks] is an arrangement of the task list in which a task of
    higher priority (high = 3, medium = 2, low = 1) stands before one of
    lower priority whatever their timestamps, and for one priority the more
    recent [createdAt] stands first; tasks of one priority and one
    timestamp keep their order (the sort is stable); and the sort works on a
    copy, so the array of [tasks] still holds the canonical list. *)
Theorem sortedTasks_spec (l : list Task) :
  sortedTasks l ≡ₚ l
  /\ StronglySorted displayedBefore (sortedTasks l)
  /\ (prioOrder high = 3 /\ prioOrder medium = 2 /\ prioOrder low = 1)
  /\ (forall p ts,
        filter (fun t => priority t = p /\ createdAt t = ts) (sortedTasks l)
        = filter (fun t => priority t = p /\ createdAt t = ts) l)
  /\ (forall (h : gmap positive (list Task)) (a : positive),
        h !! a = Some l ->
        (sortedTasksRef h a).2 <> a
        /\ (sortedTasksRef h a).1 !! a = Some l
        /\ (sortedTasksRef h a).1 !! (sortedTasksRef h a).2
           = Some (sortedTasks l)).
Proof.
  split; [apply sort_Permutation|].
  split; [apply sortedTasks_StronglySorted|].
  split; [done|].
  split; [intros p ts; apply sortedTasks_key_order|].
  intros h a. apply sortedTasksRef_spec.
Qed.

Lemma sortedTasks_spec_witness :
  sortedTasks sampleTasks ≡ₚ sampleTasks
  /\ (sortedTasksRef {[ 1%positive := sampleTasks ]} 1).1 !! 1%positive
     = Some sampleTasks.
Proof.
  destruct (sortedTasks_spec sampleTasks) as (H1 & _ & _ & _ & H2).
  split; [exact H1|].
  destruct (H2 {[ 1%positive := sampleTasks ]} 1%positive
              (lookup_singleton_eq _ _))
    as (_ & H3 & _).
  exact H3.
Defined.

Example sortedTasks_example :
  sortedTasks [ mkTask (JS.of_string "a") false low 50;
                mkTask (JS.of_string "b") true high 10;
                mkTask (JS.of_string "c") false medium 40;
                mkTask (JS.of_string "d") false high 30 ]
  = [ mkTask (JS.of_string "d") false high 30;
      mkTask (JS.of_string "b") true high 10;
      mkTask (JS.of_string "c") false medium 40;
      mkTask (JS.of_string "a") false low 50 ].
Proof. vm_compute. reflexivity. Qed.

(** ** Deleting *)

Lemma filter_Forall_id {A} (P : A -> Prop) `{!forall x, Decision (P x)}
    (l : list A) :
  Forall P l -> filter P l = l.
Proof.
  induction 1 as [|x l Hx _ IH]; [done|].
  by rewrite filter_cons_True, IH.
Qed.

(** With distinct timestamps, a task of the list is found at its own
    position, and deleting there drops that task and no other. *)
Lemma originalIndex_remove (l : list Task) (task : Task) :
  task ∈ l -> NoDup (createdAt <$> l) ->
  0 <= originalIndex l task < Z.of_nat (length l)
  /\ l !! Z.to_nat (originalIndex l task) = Some task
  /\ remove l (originalIndex l task)
     = filter (fun t => createdAt t <> createdAt task) l.
Proof.
  intros Hin Hnd.
  apply list_elem_of_split in Hin as (l1 & l2 & ->).
  rewrite fmap_app, fmap_cons in Hnd.
  apply NoDup_app in Hnd as (_ & Hl1 & Hnd).
  apply NoDup_cons in Hnd as [Hl2 _].
  assert (H1 : Forall (fun t => createdAt t <> createdAt task) l1).
  { apply Forall_forall. intros t Ht Heq.
    apply (Hl1 (createdAt t)); [by apply list_elem_of_fmap_2|].
    rewrite Heq. left. }
  assert (H2 : Forall (fun t => createdAt t <> createdAt task) l2).
  { apply Forall_forall. intros t Ht Heq.
    apply Hl2. rewrite <- Heq. by apply list_elem_of_fmap_2. }
  assert (Hidx : originalIndex (l1 ++ task :: l2) task
                 = Z.of_nat (length l1)).
  { unfold originalIndex, JS.findIndex.
    rewrite findIndex_from_found; [lia| |apply Z.eqb_refl].
    eapply Forall_impl; [exact H1|].
    intros t Ht. by apply Z.eqb_neq. }
  rewrite Hidx, Nat2Z.id, remove_delete, delete_middle.
  rewrite length_app, length_cons. split; [lia|].
  split; [by apply list_lookup_middle|].
  rewrite filter_app, filter_cons_False by (intros H; by apply H).
  by rewrite !filter_Forall_id.
Qed.

(** C3. Removing at a valid index shortens the list by one and drops the
    element at that index, the others staying in order; and when the task
    list has distinct [createdAt] values, deleting a displayed task, whose
    index is found by its [createdAt], removes exactly the task with that
    [createdAt]. *)
Theorem remove_spec (l : list Task) (i : Z) :
  0 <= i < Z.of_nat (length l) ->
  length (remove l i) = (length l - 1)%nat
  /\ remove l i = take (Z.to_nat i) l ++ drop (S (Z.to_nat i)) l
  /\ (forall j, (j < Z.to_nat i)%nat -> remove l i !! j = l !! j)
  /\ (forall j, (Z.to_nat i <= j)%nat -> remove l i !! j = l !! S j)
  /\ (forall (st : AppState) (task : Task),
        tasks st = l ->
        NoDup (createdAt <$> l) ->
        task ∈ sortedTasks l ->
        l !! Z.to_nat (originalIndex l task) = Some task
        /\ tasks (step st (ClickDelete task)).1
           = filter (fun t => createdAt t <> createdAt task) l).
Proof.
  intros Hi.
  assert (Hrem : remove l i = delete (Z.to_nat i) l).
  { rewrite <- remove_delete. f_equal. lia. }
  rewrite Hrem.
  split. { apply length_delete, lookup_lt_is_Some. lia. }
  split. { apply delete_take_drop. }
  split. { intros j Hj. by apply list_lookup_delete_lt. }
  split. { intros j Hj. by apply list_lookup_delete_ge. }
  intros st task Hst Hnd Hin.
  assert (Hin' : task ∈ l).
  { unfold sortedTasks in Hin. by rewrite sort_Permutation in Hin. }
  destruct (originalIndex_remove l task Hin' Hnd) as (_ & Hlook & Hfil).
  split; [done|].
  unfold step, handle, deleteTask, apply_updates, afterEffects.
  cbn [foldl apply_update userId]. rewrite Hst, <- Hfil.
  by destruct (_ && _).
Qed.

Lemma remove_spec_witness :
  length (remove sampleTasks 1) = 1%nat
  /\ remove sampleTasks 1 = [ mkTask (JS.of_string "a") false low 50 ]
  /\ tasks (step sampleState
                 (ClickDelete (mkTask (JS.of_string "b") true high 10))).1
     = [ mkTask (JS.of_string "a") false low 50 ].
Proof.
  assert (Hi : 0 <= 1 < Z.of_nat (length sampleTasks)) by (cbn; lia).
  destruct (remove_spec sampleTasks 1 Hi) as (H1 & H2 & _ & _ & H3).
  split; [exact H1|]. split; [exact H2|].
  refine (proj2 (H3 sampleState (mkTask (JS.of_string "b") true high 10)
                    eq_refl _ _)).
  - vm_compute. repeat constructor; inversion 1 as [|? ? ? Hin]; inversion Hin.
  - vm_compute. left.
Defined.

(** ** Toggling *)

(** C7. Toggling at a valid index flips [completed] of the element at that
    index, keeps its other fields, keeps every other element and the
    length, and toggling twice at that index gives the list back. *)
Theorem toggle_spec (l : list Task) (i : Z) :
  0 <= i < Z.of_nat (length l) ->
  length (toggle l i) = length l
  /\ (exists task,
        l !! Z.to_nat i = Some task
        /\ toggle l i !! Z.to_nat i
           = Some (mkTask (text task) (negb (completed task))
                          (priority task) (createdAt task)))
  /\ (forall j, j <> Z.to_nat i -> toggle l i !! j = l !! j)
  /\ toggle (toggle l i) i = l.
Proof.
  intros Hi.
  assert (Htog : forall k, toggle k i = alter flipCompleted (Z.to_nat i) k).
  { intros k. rewrite <- toggle_alter. f_equal. lia. }
  rewrite !Htog.
  split. { apply length_alter. }
  split.
  { destruct (lookup_lt_is_Some_2 l (Z.to_nat i)) as [task Htask]; [lia|].
    exists task. split; [done|].
    by rewrite list_lookup_alter_eq, Htask. }
  split. { intros j Hj. by apply list_lookup_alter_ne. }
  rewrite list_alter_alter_eq. apply list_alter_id.
  intros task. apply flipCompleted_involutive.
Qed.

Lemma toggle_spec_witness :
  length (toggle sampleTasks 0) = 2%nat
  /\ toggle (toggle sampleTasks 0) 0 = sampleTasks.
Proof.
  assert (Hi : 0 <= 0 < Z.of_nat (length sampleTasks)) by (cbn; lia).
  destruct (toggle_spec sampleTasks 0 Hi) as (H1 & _ & _ & H2).
  split; [exact H1 | exact H2].
Defined.

(** C9. At an index out of range, negative or at least the length, neither
    [remove] nor [toggle] changes the list, and so the list that
    [deleteTask] and [toggleComplete] store is the one that was there. *)
Theorem out_of_range_unchanged (l : list Task) (index : Z) :
  index < 0 \/ Z.of_nat (length l) <= index ->
  remove l index = l
  /\ toggle l index = l
  /\ (forall st, tasks st = l ->
        deleteTask index st = [ SetTasks l ]
        /\ toggleComplete index st = [ SetTasks l ]).
Proof.
  intros H.
  pose proof (remove_out_of_range l index H) as Hr.
  pose proof (toggle_out_of_range l index H) as Ht.
  split; [done|]. split; [done|].
  intros st Hst. unfold deleteTask, toggleComplete.
  by rewrite Hst, Hr, Ht.
Qed.

Lemma out_of_range_unchanged_witness :
  (remove sampleTasks (-1) = sampleTasks
   /\ toggle sampleTasks (-1) = sampleTasks)
  /\ (remove sampleTasks 2 = sampleTasks
      /\ toggle sampleTasks 2 = sampleTasks).
Proof.
  assert (Hneg : -1 < 0 \/ Z.of_nat (length sampleTasks) <= -1)
    by (left; lia).
  assert (Hlen : 2 < 0 \/ Z.of_nat (length sampleTasks) <= 2)
    by (right; cbn; lia).
  destruct (out_of_range_unchanged sampleTasks (-1) Hneg) as (H1 & H2 & _).
  destruct (out_of_range_unchanged sampleTasks 2 Hlen) as (H3 & H4 & _).
  repeat split; assumption.
Defined.

(** ** Adding *)

Lemma trimStart_nil_iff (s : JS.jsstring) :
  JS.trimStart s = [] <-> Forall (fun c => JS.isWhiteSpace c = true) s.
Proof.
  induction s as [|c s IH]; cbn [JS.trimStart].
  - split; [constructor|done].
  - destruct (JS.isWhiteSpace c) eqn:Hc.
    + rewrite IH. split; [by constructor|by inversion 1].
    + split; [done|]. intros H. apply Forall_cons_1 in H as [H _].
      by rewrite Hc in H.
Qed.

Lemma trimStart_head (s : JS.jsstring) (c : N) (t : JS.jsstring) :
  JS.trimStart s = c :: t -> JS.isWhiteSpace c = false.
Proof.
  induction s as [|d s IH]; cbn [JS.trimStart]; [done|].
  destruct (JS.isWhiteSpace d) eqn:Hd; [done|].
  intros [= -> _]. done.
Qed.

(** The trimmed text is empty exactly when the text is empty or made of
    white space only. *)
Lemma trim_nil_iff (s : JS.jsstring) :
  JS.trim s = [] <-> Forall (fun c => JS.isWhiteSpace c = true) s.
Proof.
  unfold JS.trim, JS.trimEnd.
  rewrite <- trimStart_nil_iff.
  split.
  - intros H. apply (f_equal reverse) in H.
    rewrite reverse_involutive, reverse_nil in H.
    apply trimStart_nil_iff in H. rewrite Forall_reverse in H.
    destruct (JS.trimStart s) as [|c t] eqn:Hs; [done|].
    apply trimStart_head in Hs. apply Forall_cons_1 in H as [H _].
    by rewrite Hs in H.
  - intros ->. done.
Qed.

Lemma step_addTask_blank (st : AppState) (now : Z) :
  JS.trim (newTask st) = [] -> step st (ClickAdd now) = (st, []).
Proof.
  intros H. unfold step, handle, addTask. rewrite H.
  unfold afterEffects, effects, apply_updates. cbn [foldl existsb].
  rewrite !bool_decide_eq_true_2 by done. done.
Qed.

Lemma step_addTask_state (st : AppState) (now : Z) :
  JS.trim (newTask st) <> [] ->
  (step st (ClickAdd now)).1
  = mkAppState
      (tasks st ++ [mkTask (JS.trim (newTask st)) false (newPriority st) now])
      [] medium (userId st) (loading st) (isInitialLoadDone st) (darkMode st).
Proof.
  intros H. unfold step, handle, addTask.
  destruct (JS.trim (newTask st)) as [|c t] eqn:Ht; [done|].
  unfold afterEffects, apply_updates.
  cbn [foldl apply_update fst userId tasks newTask newPriority loading
         isInitialLoadDone darkMode].
  rewrite bool_decide_eq_true_2 by done. done.
Qed.

(** C4. When the trimmed text is not empty, adding appends the task with
    the trimmed text, [completed] false, the chosen priority and the
    current time at the end of the list: the length grows by one and every
    task that was there stays where it was. *)
Theorem addTask_appends (st : AppState) (now : Z) :
  JS.trim (newTask st) <> [] ->
  tasks (step st (ClickAdd now)).1
  = tasks st
    ++ [ mkTask (JS.trim (newTask st)) false (newPriority st) now ]
  /\ length (tasks (step st (ClickAdd now)).1) = S (length (tasks st))
  /\ (forall i task,
        tasks st !! i = Some task ->
        tasks (step st (ClickAdd now)).1 !! i = Some task).
Proof.
  intros H. rewrite step_addTask_state by done. cbn [tasks].
  split; [done|]. split.
  - rewrite length_app, length_cons, length_nil. lia.
  - intros i task Hi. by apply lookup_app_l_Some.
Qed.

Lemma addTask_appends_witness :
  tasks (step sampleState (ClickAdd 1700)).1
  = sampleTasks ++ [ mkTask (JS.of_string "Buy milk") false high 1700 ].
Proof.
  assert (H : JS.trim (newTask sampleState) <> []) by (vm_compute; discriminate).
  exact (proj1 (addTask_appends sampleState 1700 H)).
Defined.

(** C8. When the text is empty or made of white space only, adding changes
    nothing: the task list, and the whole state, are what they were, and
    nothing is written. *)
Theorem addTask_blank_noop (st : AppState) (now : Z) :
  Forall (fun c => JS.isWhiteSpace c = true) (newTask st) ->
  addTask now st = []
  /\ tasks (step st (ClickAdd now)).1 = tasks st
  /\ step st (ClickAdd now) = (st, []).
Proof.
  intros H. apply trim_nil_iff in H.
  rewrite step_addTask_blank by done.
  split; [|done]. unfold addTask. by rewrite H.
Qed.

Lemma addTask_blank_noop_witness :
  step blankState (ClickAdd 1700) = (blankState, [])
  /\ step (initialState false) (ClickAdd 1700) = (initialState false, []).
Proof.
  assert (H1 : Forall (fun c => JS.isWhiteSpace c = true)
                 (newTask blankState))
    by (repeat constructor).
  assert (H2 : Forall (fun c => JS.isWhiteSpace c = true)
                 (newTask (initialState false)))
    by constructor.
  split.
  - exact (proj2 (proj2 (addTask_blank_noop blankState 1700 H1))).
  - exact (proj2 (proj2 (addTask_blank_noop (initialState false) 1700 H2))).
Defined.

(** C10. A successful add empties the input text and sets the priority
    selection back to medium; an add that does nothing leaves both as they
    were. *)
Theorem addTask_form_reset (st : AppState) (now : Z) :
  (JS.trim (newTask st) <> [] ->
   newTask (step st (ClickAdd now)).1 = []
   /\ newPriority (step st (ClickAdd now)).1 = medium)
  /\ (JS.trim (newTask st) = [] ->
      newTask (step st (ClickAdd now)).1 = newTask st
      /\ newPriority (step st (ClickAdd now)).1 = newPriority st).
Proof.
  split; intros H.
  - by rewrite step_addTask_state.
  - by rewrite step_addTask_blank.
Qed.

Lemma addTask_form_reset_witness :
  (newTask (step sampleState (ClickAdd 1700)).1 = []
   /\ newPriority (step sampleState (ClickAdd 1700)).1 = medium)
  /\ (newTask (step blankState (ClickAdd 1700)).1 = JS.of_string "   "
      /\ newPriority (step blankState (ClickAdd 1700)).1 = high).
Proof.
  assert (H1 : JS.trim (newTask sampleState) <> [])
    by (vm_compute; discriminate).
  assert (H2 : JS.trim (newTask blankState) = []) by (vm_compute; reflexivity).
  split.
  - exact (proj1 (addTask_form_reset sampleState 1700) H1).
  - exact (proj2 (addTask_form_reset blankState 1700) H2).
Defined.

(** ** Snapshots *)

Lemma afterEffects_same_userId (old new : AppState) :
  userId old = userId new -> afterEffects old new = new.
Proof.
  intros H. unfold afterEffects. by rewrite bool_decide_eq_true_2.
Qed.

(** C5. A snapshot that says the document exists replaces the local tasks
    by its [tasks] field, or by the empty list when the field is missing,
    and replaces the local [darkMode] exactly when its
    [preferences.darkMode] is defined; a snapshot that says the document
    does not exist empties the local tasks and leaves [darkMode] as it
    was. *)
Theorem snapshot_replaces_state (st : AppState) (uid : string)
    (docSnap : option DocData) :
  subscription st = Some uid ->
  match docSnap with
  | Some data =>
      tasks (step st (Snapshot uid docSnap)).1 = default [] (dd_tasks data)
      /\ (forall l, dd_tasks data = Some l ->
            tasks (step st (Snapshot uid docSnap)).1 = l)
      /\ (dd_tasks data = None ->
            tasks (step st (Snapshot uid docSnap)).1 = [])
      /\ (forall b, snapshotDarkMode data = Some b ->
            darkMode (step st (Snapshot uid docSnap)).1 = b)
      /\ (snapshotDarkMode data = None ->
            darkMode (step st (Snapshot uid docSnap)).1 = darkMode st)
  | None =>
      tasks (step st (Snapshot uid docSnap)).1 = []
      /\ darkMode (step st (Snapshot uid docSnap)).1 = darkMode st
  end.
Proof.
  intros Hsub. unfold step, handle.
  rewrite bool_decide_eq_true_2 by done.
  destruct docSnap as [data|]; unfold onSnapshotCallback.
  - destruct (snapshotDarkMode data) as [b|] eqn:Hdm;
      rewrite afterEffects_same_userId by done;
      unfold apply_updates; cbn [app foldl apply_update fst tasks darkMode];
      (split; [done|]); (split; [by intros l ->|]);
      (split; [by intros ->|]); (split; [by intros b' [= ->]|done]).
  - rewrite afterEffects_same_userId by done. done.
Qed.

Lemma snapshot_replaces_state_witness :
  tasks (step sampleState (Snapshot "u1" (Some sampleDoc))).1 = sampleTasks
  /\ darkMode (step sampleState (Snapshot "u1" (Some sampleDoc))).1 = true
  /\ tasks (step sampleState (Snapshot "u1" None)).1 = []
  /\ darkMode (step sampleState (Snapshot "u1" None)).1 = false.
Proof.
  pose proof (snapshot_replaces_state sampleState "u1" (Some sampleDoc)
                eq_refl) as (_ & H1 & _ & H2 & _).
  pose proof (snapshot_replaces_state sampleState "u1" None eq_refl)
    as (H3 & H4).
  split; [exact (H1 sampleTasks eq_refl)|].
  split; [exact (H2 true eq_refl)|].
  split; [exact H3 | exact H4].
Defined.

(** ** What is written *)

Lemma elem_of_saveTasksEffect (st : AppState) (w : Write) :
  w ∈ saveTasksEffect st ->
  w = mkWrite (w_uid w) (tasksPayload (tasks st)) true
  /\ userId st = Some (w_uid w)
  /\ truthy (userId st) = true
  /\ isInitialLoadDone st = true.
Proof.
  unfold saveTasksEffect.
  destruct (userId st) as [uid|] eqn:Hu; [|by intros ?%elem_of_nil].
  destruct (truthy (Some uid)), (isInitialLoadDone st); cbn [negb orb];
    try by intros ?%elem_of_nil.
  intros ->%list_elem_of_singleton. done.
Qed.

Lemma elem_of_savePreferencesEffect (st : AppState) (w : Write) :
  w ∈ savePreferencesEffect st ->
  w = mkWrite (w_uid w) (preferencesPayload (darkMode st)) true
  /\ userId st = Some (w_uid w)
  /\ truthy (userId st) = true
  /\ isInitialLoadDone st = true.
Proof.
  unfold savePreferencesEffect.
  destruct (userId st) as [uid|] eqn:Hu; [|by intros ?%elem_of_nil].
  destruct (truthy (Some uid)), (isInitialLoadDone st); cbn [negb orb];
    try by intros ?%elem_of_nil.
  intros ->%list_elem_of_singleton. done.
Qed.

Lemma elem_of_effects (old new : AppState) (ups : list Update) (w : Write) :
  w ∈ effects old new ups ->
  w ∈ saveTasksEffect new \/ w ∈ savePreferencesEffect new.
Proof.
  unfold effects. intros [H|H]%elem_of_app; [left|right];
    by destruct (_ || _); [|apply elem_of_nil in H].
Qed.

(** The guard, on one step: a write needs an identity and the flag. *)
Lemma step_write_guarded (st : AppState) (ev : Event) (w : Write) :
  w ∈ (step st ev).2 ->
  userId (apply_updates st (handle st ev)) = Some (w_uid w)
  /\ truthy (userId (apply_updates st (handle st ev))) = true
  /\ isInitialLoadDone (apply_updates st (handle st ev)) = true.
Proof.
  unfold step. cbn [snd].
  intros [H|H]%elem_of_effects.
  - by apply elem_of_saveTasksEffect in H as (_ & ? & ? & ?).
  - by apply elem_of_savePreferencesEffect in H as (_ & ? & ? & ?).
Qed.

Lemma afterEffects_fields (old new : AppState) :
  tasks (afterEffects old new) = tasks new
  /\ darkMode (afterEffects old new) = darkMode new
  /\ userId (afterEffects old new) = userId new
  /\ isInitialLoadDone (afterEffects old new) = isInitialLoadDone new.
Proof. unfold afterEffects. by destruct (_ && _). Qed.

Lemma docOf_setDoc_merge (store : gmap string DocData) (uid : string)
    (payload : DocData) :
  docOf (setDoc store (mkWrite uid payload true)) uid
  = mergeFields payload (docOf store uid).
Proof. unfold docOf at 1, setDoc. cbn. by rewrite lookup_insert_eq. Qed.

Lemma setDoc_other (store : gmap string DocData) (w : Write) (uid' : string) :
  uid' <> w_uid w -> setDoc store w !! uid' = store !! uid'.
Proof.
  intros Hne. unfold setDoc.
  destruct (w_merge w); by rewrite lookup_insert_ne.
Qed.

(** C6. Every write that a step issues asks for a merge and carries one
    field.  A write of the tasks carries [{ tasks }] with the tasks of the
    new state, and in the store it leaves the [preferences] field and every
    other field of the document as they were; a write of the theme carries
    [{ preferences: { darkMode } }] and leaves [tasks] and every other field
    as they were.  Documents of other users are not touched. *)
Theorem writes_touch_one_field (st : AppState) (ev : Event) (w : Write)
    (store : gmap string DocData) :
  w ∈ (step st ev).2 ->
  w_merge w = true
  /\ ((w_payload w = tasksPayload (tasks (step st ev).1)
       /\ dd_tasks (docOf (setDoc store w) (w_uid w))
          = Some (tasks (step st ev).1)
       /\ dd_preferences (docOf (setDoc store w) (w_uid w))
          = dd_preferences (docOf store (w_uid w))
       /\ dd_other (docOf (setDoc store w) (w_uid w))
          = dd_other (docOf store (w_uid w)))
      \/ (w_payload w = preferencesPayload (darkMode (step st ev).1)
          /\ dd_preferences (docOf (setDoc store w) (w_uid w))
             = Some (mkPreferences (Some (darkMode (step st ev).1)))
          /\ dd_tasks (docOf (setDoc store w) (w_uid w))
             = dd_tasks (docOf store (w_uid w))
          /\ dd_other (docOf (setDoc store w) (w_uid w))
             = dd_other (docOf store (w_uid w))))
  /\ (forall uid', uid' <> w_uid w -> setDoc store w !! uid' = store !! uid').
Proof.
  intros Hw. unfold step in *. cbn [fst snd] in *.
  destruct (afterEffects_fields st (apply_updates st (handle st ev)))
    as (-> & -> & _ & _).
  split; [|split; [|intros uid'; apply setDoc_other]].
  - apply elem_of_effects in Hw as [H|H].
    + apply elem_of_saveTasksEffect in H as (-> & _). done.
    + apply elem_of_savePreferencesEffect in H as (-> & _). done.
  - apply elem_of_effects in Hw as [H|H]; [left|right].
    + apply elem_of_saveTasksEffect in H as (-> & _).
      cbn [w_payload w_uid]. rewrite docOf_setDoc_merge.
      unfold mergeFields, tasksPayload. cbn.
      by rewrite (left_id_L ∅ (∪)).
    + apply elem_of_savePreferencesEffect in H as (-> & _).
      cbn [w_payload w_uid]. rewrite docOf_setDoc_merge.
      unfold mergeFields, preferencesPayload. cbn.
      by rewrite (left_id_L ∅ (∪)).
Qed.

Lemma writes_touch_one_field_witness :
  dd_tasks (docOf (setDoc {[ "u1"%string := sampleDoc ]}
                          (mkWrite "u1" (tasksPayload []) true)) "u1")
  = Some []
  /\ dd_preferences (docOf (setDoc {[ "u1"%string := sampleDoc ]}
                                   (mkWrite "u1" (tasksPayload []) true)) "u1")
     = Some (mkPreferences (Some true))
  /\ dd_other (docOf (setDoc {[ "u1"%string := sampleDoc ]}
                             (mkWrite "u1" (tasksPayload []) true)) "u1")
     = {[ "theme"%string := "blue"%string ]}.
Proof.
  assert (Hw : mkWrite "u1" (tasksPayload []) true
               ∈ (step sampleState (ClickClearAll true)).2)
    by (vm_compute; left).
  destruct (writes_touch_one_field sampleState (ClickClearAll true) _
              {[ "u1"%string := sampleDoc ]} Hw)
    as (_ & [(_ & H1 & H2 & H3)|(H2 & _)] & _).
  - split; [exact H1|]. split; [exact H2 | exact H3].
  - discriminate H2.
Defined.

(** ** The write guard *)

Lemma effects_not_loaded (old new : AppState) (ups : list Update) :
  isInitialLoadDone new = false \/ truthy (userId new) = false ->
  effects old new ups = [].
Proof.
  intros H. unfold effects, saveTasksEffect, savePreferencesEffect.
  destruct (userId new) as [u|] eqn:Hu.
  - assert (negb (truthy (Some u)) || negb (isInitialLoadDone new) = true)
      as ->.
    { destruct H as [->| ->]; cbn; [apply orb_true_r|done]. }
    by do 2 destruct (_ || _).
  - by do 2 destruct (_ || _).
Qed.

(** Only the snapshot callback sets the flag, and no handler but the
    identity callback sets the identity. *)
Lemma handle_keeps_flag (st : AppState) (ev : Event) :
  (forall u d, ev = Snapshot u d -> subscription st <> Some u) ->
  isInitialLoadDone (apply_updates st (handle st ev)) = isInitialLoadDone st.
Proof.
  intros Hev. destruct ev as [[u|]|u d|s|p|now|task|task|[]|]; try done.
  - cbn [handle]. rewrite bool_decide_eq_false_2; [done|].
    exact (Hev u d eq_refl).
  - cbn [handle]. unfold addTask. by destruct (JS.trim (newTask st)).
Qed.

Lemma handle_userId (st : AppState) (ev : Event) :
  userId (apply_updates st (handle st ev))
  = match ev with
    | AuthStateChanged (Some u) => Some u
    | _ => userId st
    end.
Proof.
  destruct ev as [[u|]|u d|s|p|now|task|task|[]|]; try done.
  - cbn [handle]. case_bool_decide; [|done].
    destruct d as [data|]; [|done].
    unfold onSnapshotCallback. by destruct (snapshotDarkMode data).
  - cbn [handle]. unfold addTask. by destruct (JS.trim (newTask st)).
Qed.

Lemma subscription_Some (st : AppState) (u : string) :
  subscription st = Some u -> userId st = Some u.
Proof. unfold subscription. by destruct (truthy (userId st)). Qed.

Section OneIdentity.
Variable uid : string.

Lemma step_notLoaded (st : AppState) (ev : Event) :
  notLoadedFor uid st ->
  (forall u, ev = AuthStateChanged (Some u) -> u = uid) ->
  (forall d, ev = Snapshot uid d -> subscription st <> Some uid) ->
  notLoadedFor uid (step st ev).1 /\ (step st ev).2 = [].
Proof.
  intros [Hflag Hid] Hauth Hsnap.
  assert (Hkeep : isInitialLoadDone (apply_updates st (handle st ev))
                  = false).
  { rewrite handle_keeps_flag; [done|].
    intros u d -> Hsub.
    assert (u = uid) as ->.
    { apply subscription_Some in Hsub.
      destruct Hid as [Hid|Hid]; congruence. }
    exact (Hsnap d eq_refl Hsub). }
  unfold step. cbn [fst snd].
  destruct (afterEffects_fields st (apply_updates st (handle st ev)))
    as (_ & _ & Hu & Hf).
  split; [split|].
  - by rewrite Hf.
  - rewrite Hu, handle_userId.
    destruct ev as [[u|]|? ?|?|?|?|?|?|?|]; try done.
    right. f_equal. by apply Hauth.
  - apply effects_not_loaded. by left.
Qed.

Lemma run_cons (st : AppState) (ev : Event) (evs : list Event) :
  run st (ev :: evs)
  = ((run (step st ev).1 evs).1, (step st ev).2 ++ (run (step st ev).1 evs).2).
Proof.
  cbn [run]. destruct (step st ev) as [st1 ws1]. cbn [fst snd].
  by destruct (run st1 evs) as [st2 ws2].
Qed.

(** Up to the first snapshot that reaches the callback, nothing is
    written. *)
Lemma run_until_first_snapshot (evs : list Event) (st : AppState) :
  notLoadedFor uid st ->
  one_identity uid evs ->
  (notLoadedFor uid (run st evs).1 /\ (run st evs).2 = [])
  \/ (exists pre d post,
        evs = pre ++ Snapshot uid d :: post
        /\ (run st pre).2 = []
        /\ notLoadedFor uid (run st pre).1
        /\ subscription (run st pre).1 = Some uid).
Proof.
  revert st. induction evs as [|ev evs IH]; intros st Hst Hone.
  { by left. }
  assert (Hone' : one_identity uid evs).
  { intros u Hu. apply Hone. by right. }
  assert (Hauth : forall u, ev = AuthStateChanged (Some u) -> u = uid).
  { intros u ->. apply Hone. left. }
  assert (Hcase : (exists d, ev = Snapshot uid d
                             /\ subscription st = Some uid)
                  \/ (forall d, ev = Snapshot uid d ->
                                subscription st <> Some uid)).
  { destruct (decide (subscription st = Some uid)) as [Hsub|Hsub];
      [|by right].
    destruct ev as [?|u d|?|?|?|?|?|?|]; try by right.
    destruct (decide (u = uid)) as [->|Hne]; [left; by exists d|].
    right. intros d' [= ? _]. done. }
  destruct Hcase as [(d & -> & Hsub)|Hsnap].
  { right. exists [], d, evs. by cbn. }
  destruct (step_notLoaded st ev Hst Hauth Hsnap) as [Hst1 Hws1].
  rewrite run_cons, Hws1.
  destruct (IH _ Hst1 Hone') as [[Hl Hw]|(pre & d & post & -> & Hw & Hl & Hs)].
  - left. cbn [fst snd]. by rewrite Hw.
  - right. exists (ev :: pre), d, post.
    rewrite run_cons, Hws1, Hw. done.
Qed.

(** Under one identity every write goes to the document of [uid]. *)
Lemma run_writes_target (evs : list Event) (st : AppState) (w : Write) :
  userId st = None \/ userId st = Some uid ->
  one_identity uid evs ->
  w ∈ (run st evs).2 -> w_uid w = uid.
Proof.
  revert st. induction evs as [|ev evs IH]; intros st Hst Hone.
  { by intros ?%elem_of_nil. }
  assert (Hone' : one_identity uid evs).
  { intros u Hu. apply Hone. by right. }
  assert (Hid : userId (step st ev).1 = None
                \/ userId (step st ev).1 = Some uid).
  { unfold step. cbn [fst].
    destruct (afterEffects_fields st (apply_updates st (handle st ev)))
      as (_ & _ & -> & _).
    rewrite handle_userId.
    destruct ev as [[u|]|? ?|?|?|?|?|?|?|]; try done.
    right. f_equal. apply Hone. left. }
  rewrite run_cons. cbn [snd]. intros [Hw|Hw]%elem_of_app.
  - apply step_write_guarded in Hw as (Hu & _).
    unfold step in Hid. cbn [fst] in Hid.
    destruct (afterEffects_fields st (apply_updates st (handle st ev)))
      as (_ & _ & Hu' & _).
    rewrite Hu', Hu in Hid. by destruct Hid as [?|[= ?]].
  - by eapply IH.
Qed.
End OneIdentity.

Lemma initialState_notLoaded (uid : string) (saved : bool) :
  notLoadedFor uid (initialState saved).
Proof. split; [done|by left]. Qed.

(** C1. Under one identity [uid], from the mounted component:
    a local mutation made while the flag is unset, or while no identity is
    present, writes nothing; as long as no snapshot of [uid] has been
    delivered nothing has been written; when something is written, a
    snapshot of [uid] was delivered through the open subscription before
    the first write, with the flag unset until then; and every write goes
    to the document of [uid]. *)
Theorem write_guard (saved : bool) (uid : string) (evs : list Event) :
  one_identity uid evs ->
  (forall st ev,
      isInitialLoadDone st = false \/ truthy (userId st) = false ->
      isLocalMutation ev = true ->
      (step st ev).2 = [])
  /\ (forall pre post,
        evs = pre ++ post ->
        (forall d, Snapshot uid d ∉ pre) ->
        (run (initialState saved) pre).2 = []
        /\ isInitialLoadDone (run (initialState saved) pre).1 = false)
  /\ ((run (initialState saved) evs).2 <> [] ->
      exists pre d post,
        evs = pre ++ Snapshot uid d :: post
        /\ (run (initialState saved) pre).2 = []
        /\ isInitialLoadDone (run (initialState saved) pre).1 = false
        /\ subscription (run (initialState saved) pre).1 = Some uid)
  /\ (forall w, w ∈ (run (initialState saved) evs).2 -> w_uid w = uid).
Proof.
  intros Hone. split; [|split; [|split]].
  - intros st ev Hst Hev. unfold step. cbn [snd].
    apply effects_not_loaded.
    destruct Hst as [Hflag|Hid]; [left|right].
    + rewrite handle_keeps_flag; [done|]. by intros u d ->.
    + rewrite handle_userId. by destruct ev as [?|? ?|?|?|?|?|?|?|].
  - intros pre post -> Hpre.
    assert (Hone' : one_identity uid pre).
    { intros u Hu. apply Hone, elem_of_app. by left. }
    destruct (run_until_first_snapshot uid pre _
                (initialState_notLoaded uid saved) Hone')
      as [[[Hl _] Hw]|(pre' & d & post' & -> & _)]; [done|].
    exfalso. apply (Hpre d), elem_of_app. right. left.
  - intros Hw.
    destruct (run_until_first_snapshot uid evs _
                (initialState_notLoaded uid saved) Hone)
      as [[_ Hw']|(pre & d & post & -> & Hw' & [Hl _] & Hs)]; [done|].
    by exists pre, d, post.
  - intros w. apply run_writes_target; [by left|done].
Qed.

Lemma write_guard_witness :
  (run (initialState false)
       [ AuthStateChanged (Some "u1"%string); ClickTheme; ClickAdd 7 ]).2 = []
  /\ forall w,
      w ∈ (run (initialState false)
               [ AuthStateChanged (Some "u1"%string); ClickTheme; ClickAdd 7;
                 Snapshot "u1" None; ClickTheme ]).2 ->
      w_uid w = "u1"%string.
Proof.
  assert (Hone : one_identity "u1"
                   [ AuthStateChanged (Some "u1"%string); ClickTheme;
                     ClickAdd 7; Snapshot "u1" None; ClickTheme ]).
  { intros u Hu. apply elem_of_cons in Hu as [Hu|Hu]; [by injection Hu|].
    repeat (apply elem_of_cons in Hu as [Hu|Hu]; [discriminate Hu|]).
    by apply elem_of_nil in Hu. }
  destruct (write_guard false "u1" _ Hone) as (_ & Hpre & _ & Htarget).
  split; [|exact Htarget].
  refine (proj1 (Hpre [ AuthStateChanged (Some "u1"%string); ClickTheme;
                        ClickAdd 7 ] [ Snapshot "u1" None; ClickTheme ]
                      eq_refl _)).
  intros d Hd.
  repeat (apply elem_of_cons in Hd as [Hd|Hd]; [discriminate Hd|]).
  by apply elem_of_nil in Hd.
Defined.

(** The guard is one flag for the whole component: it is not unset when
    the provider announces another identity, so the tasks loaded for the
    first identity are written to the document of the second as soon as it
    is announced.  [write_guard] is about runs under one identity. *)
Example run_two_identities :
  (run (initialState false)
       [ AuthStateChanged (Some "u1"%string);
         Snapshot "u1" (Some sampleDoc);
         AuthStateChanged (Some "u2"%string) ]).2
  = [ mkWrite "u1" (tasksPayload sampleTasks) true;
      mkWrite "u1" (preferencesPayload true) true;
      mkWrite "u2" (tasksPayload sampleTasks) true;
      mkWrite "u2" (preferencesPayload true) true ].
Proof. vm_compute. reflexivity. Qed.

(** * More of the component *)

(** ** The counters *)

Lemma filter_from_no_index {A} (p : A -> bool) (i : Z) (l : list A) :
  JS.filter_from (fun x _ => p x) i l = filter (fun x => p x = true) l.
Proof.
  revert i. induction l as [|x l IH]; intros i; [done|].
  cbn [JS.filter_from]. rewrite filter_cons, IH.
  destruct (p x); by case_decide.
Qed.

Lemma completedTasks_filter (l : list Task) :
  completedTasks l
  = Z.of_nat (length (filter (fun t => completed t = true) l)).
Proof. unfold completedTasks, JS.filter. by rewrite filter_from_no_index. Qed.

Lemma completedTasks_app (l1 l2 : list Task) :
  completedTasks (l1 ++ l2) = completedTasks l1 + completedTasks l2.
Proof. rewrite !completedTasks_filter, filter_app, length_app. lia. Qed.

Lemma completedTasks_cons (task : Task) (l : list Task) :
  completedTasks (task :: l)
  = (if completed task then 1 else 0) + completedTasks l.
Proof.
  rewrite !completedTasks_filter, filter_cons.
  destruct (completed task); case_decide; try done.
  rewrite length_cons. lia.
Qed.

Lemma totalTasks_app (l1 l2 : list Task) :
  totalTasks (l1 ++ l2) = totalTasks l1 + totalTasks l2.
Proof. unfold totalTasks. rewrite length_app. lia. Qed.

(** X1. The header and the footer count what they say: [completedTasks] is
    the number of tasks whose [completed] is true, [remainingTasks] the
    number of those whose [completed] is false, and both lie between 0 and
    [totalTasks]. *)
Theorem counters_spec (l : list Task) :
  completedTasks l
  = Z.of_nat (length (filter (fun t => completed t = true) l))
  /\ remainingTasks l
     = Z.of_nat (length (filter (fun t => completed t = false) l))
  /\ 0 <= completedTasks l <= totalTasks l
  /\ 0 <= remainingTasks l <= totalTasks l.
Proof.
  assert (Hrem : remainingTasks l
                 = Z.of_nat (length (filter (fun t => completed t = false) l))).
  { unfold remainingTasks, totalTasks. rewrite completedTasks_filter.
    induction l as [|task l IH]; [done|].
    rewrite !filter_cons, length_cons.
    destruct (completed task); repeat case_decide; try done;
      rewrite ?length_cons; lia. }
  split; [apply completedTasks_filter|]. split; [done|].
  assert (Hc : 0 <= completedTasks l <= totalTasks l).
  { rewrite completedTasks_filter. unfold totalTasks.
    pose proof (length_filter (fun t => completed t = true) l). lia. }
  split; [done|]. rewrite Hrem in *. unfold remainingTasks in Hrem. lia.
Qed.

Lemma alter_middle {A} (f : A -> A) (l1 l2 : list A) (x : A) :
  alter f (length l1) (l1 ++ x :: l2) = l1 ++ f x :: l2.
Proof. induction l1 as [|y l1 IH]; [done|]. cbn. by rewrite <- IH. Qed.

(** X2. Ticking the check box of the task at a valid index leaves the total
    as it is and moves one task between the two counters: one more
    completed and one less remaining when the task was not completed, the
    other way round when it was. *)
Theorem toggle_counters (l : list Task) (i : Z) (task : Task) :
  0 <= i ->
  l !! Z.to_nat i = Some task ->
  totalTasks (toggle l i) = totalTasks l
  /\ completedTasks (toggle l i)
     = completedTasks l + (if completed task then -1 else 1)
  /\ remainingTasks (toggle l i)
     = remainingTasks l - (if completed task then -1 else 1).
Proof.
  intros Hi Htask.
  assert (Htot : totalTasks (toggle l i) = totalTasks l).
  { replace i with (Z.of_nat (Z.to_nat i)) by lia.
    rewrite toggle_alter. unfold totalTasks. by rewrite length_alter. }
  assert (Hc : completedTasks (toggle l i)
               = completedTasks l + (if completed task then -1 else 1)).
  { apply list_elem_of_split_length in Htask as (l1 & l2 & -> & Hlen).
    replace i with (Z.of_nat (length l1)) by lia.
    rewrite toggle_alter, alter_middle.
    rewrite !completedTasks_app, !completedTasks_cons.
    cbn [flipCompleted completed].
    destruct (completed task); cbn [negb]; lia. }
  split; [done|]. split; [done|].
  unfold remainingTasks. rewrite Htot, Hc. lia.
Qed.

Lemma toggle_counters_witness :
  totalTasks (toggle sampleTasks 0) = totalTasks sampleTasks
  /\ completedTasks (toggle sampleTasks 0) = completedTasks sampleTasks + 1.
Proof.
  assert (H0 : 0 <= 0) by lia.
  destruct (toggle_counters sampleTasks 0
              (mkTask (JS.of_string "a") false low 50) H0 eq_refl)
    as (H1 & H2 & _).
  split; [exact H1 | exact H2].
Defined.

(** X3. A successful add makes the total and the remaining count one more
    and leaves the completed count as it is: the new task is not
    completed. *)
Theorem add_counters (st : AppState) (now : Z) :
  JS.trim (newTask st) <> [] ->
  totalTasks (tasks (step st (ClickAdd now)).1) = totalTasks (tasks st) + 1
  /\ completedTasks (tasks (step st (ClickAdd now)).1)
     = completedTasks (tasks st)
  /\ remainingTasks (tasks (step st (ClickAdd now)).1)
     = remainingTasks (tasks st) + 1.
Proof.
  intros H. rewrite step_addTask_state by done. cbn [tasks].
  unfold remainingTasks.
  rewrite totalTasks_app, completedTasks_app, completedTasks_cons.
  cbn [completed]. change (completedTasks []) with 0.
  change (totalTasks [_]) with 1. lia.
Qed.

Lemma add_counters_witness :
  totalTasks (tasks (step sampleState (ClickAdd 1700)).1) = 3
  /\ completedTasks (tasks (step sampleState (ClickAdd 1700)).1) = 1.
Proof.
  assert (H : JS.trim (newTask sampleState) <> [])
    by (vm_compute; discriminate).
  destruct (add_counters sampleState 1700 H) as (H1 & H2 & _).
  split; [exact H1 | exact H2].
Defined.

(** X4. Deleting the task at a valid index makes the total one less, and
    the completed count one less exactly when that task was completed;
    the remaining count is one less exactly when it was not. *)
Theorem remove_counters (l : list Task) (i : Z) (task : Task) :
  0 <= i ->
  l !! Z.to_nat i = Some task ->
  totalTasks (remove l i) = totalTasks l - 1
  /\ completedTasks (remove l i)
     = completedTasks l - (if completed task then 1 else 0)
  /\ remainingTasks (remove l i)
     = remainingTasks l - (if completed task then 0 else 1).
Proof.
  intros Hi Htask.
  apply list_elem_of_split_length in Htask as (l1 & l2 & -> & Hlen).
  replace i with (Z.of_nat (length l1)) by lia.
  rewrite remove_delete, delete_middle. unfold remainingTasks.
  rewrite !completedTasks_app, completedTasks_cons.
  unfold totalTasks. rewrite !length_app, length_cons.
  destruct (completed task); lia.
Qed.

Lemma remove_counters_witness :
  totalTasks (remove sampleTasks 1) = 1
  /\ completedTasks (remove sampleTasks 1) = 0.
Proof.
  assert (H0 : 0 <= 1) by lia.
  destruct (remove_counters sampleTasks 1
              (mkTask (JS.of_string "b") true high 10) H0 eq_refl)
    as (H1 & H2 & _).
  split; [exact H1 | exact H2].
Defined.

(** ** Writes of a loaded component *)

Lemma effects_loaded (uid : string) (old new : AppState)
    (ups : list Update) :
  loadedFor uid new ->
  userId old = userId new ->
  isInitialLoadDone old = isInitialLoadDone new ->
  effects old new ups
  = (if existsb is_SetTasks ups
     then [ mkWrite uid (tasksPayload (tasks new)) true ] else [])
    ++ (if bool_decide (darkMode old = darkMode new) then []
        else [ mkWrite uid (preferencesPayload (darkMode new)) true ]).
Proof.
  intros (Hu & Ht & Hf) Hid Hflag.
  unfold effects, saveTasksEffect, savePreferencesEffect.
  rewrite !(bool_decide_eq_true_2 _ Hid), !(bool_decide_eq_true_2 _ Hflag).
  rewrite Ht, Hf, Hu. cbn [negb orb]. rewrite !orb_false_r.
  by destruct (bool_decide (darkMode old = darkMode new)).
Qed.

Lemma apply_updates_SetTasks (st : AppState) (l : list Task) :
  apply_updates st [ SetTasks l ]
  = mkAppState l (newTask st) (newPriority st) (userId st) (loading st)
               (isInitialLoadDone st) (darkMode st).
Proof. done. Qed.

(** The writes of an event whose handler only calls [setTasks]. *)
Lemma step_SetTasks_loaded (uid : string) (st : AppState) (ev : Event)
    (l : list Task) :
  loadedFor uid st ->
  handle st ev = [ SetTasks l ] ->
  step st ev
  = (mkAppState l (newTask st) (newPriority st) (userId st) (loading st)
                (isInitialLoadDone st) (darkMode st),
     [ mkWrite uid (tasksPayload l) true ]).
Proof.
  intros Hl Hev. unfold step. rewrite Hev, apply_updates_SetTasks.
  rewrite afterEffects_same_userId by done.
  rewrite (effects_loaded uid) by done.
  cbn [existsb is_SetTasks orb darkMode tasks].
  by rewrite bool_decide_eq_true_2.
Qed.

Lemma step_addTask_loaded (uid : string) (st : AppState) (now : Z) :
  loadedFor uid st ->
  JS.trim (newTask st) <> [] ->
  (step st (ClickAdd now)).2
  = [ mkWrite uid (tasksPayload (tasks (step st (ClickAdd now)).1)) true ].
Proof.
  intros Hl Hnb. pose proof Hl as (Hu & Ht & Hf).
  rewrite step_addTask_state by done. cbn [tasks].
  unfold step, handle, addTask. cbn [snd].
  destruct (JS.trim (newTask st)) as [|c t] eqn:Htrim; [done|].
  rewrite (effects_loaded uid); [|done..].
  unfold apply_updates.
  cbn [existsb is_SetTasks orb foldl apply_update darkMode tasks].
  by rewrite bool_decide_eq_true_2.
Qed.

(** X5. Once the first snapshot is processed and the identity is known,
    every change of the task list is written once, as the whole new list
    and nothing else: after an add with a text that is not blank, a
    delete, a tick, and a confirmed clearing.  A click on the theme button
    writes the new theme once and no tasks; typing in the form, choosing a
    priority and a declined clearing write nothing. *)
Theorem loaded_writes (uid : string) (st : AppState) :
  loadedFor uid st ->
  (forall now, JS.trim (newTask st) <> [] ->
     (step st (ClickAdd now)).2
     = [ mkWrite uid (tasksPayload (tasks (step st (ClickAdd now)).1)) true ])
  /\ (forall task,
        (step st (ClickDelete task)).2
        = [ mkWrite uid
              (tasksPayload (remove (tasks st) (originalIndex (tasks st) task)))
              true ])
  /\ (forall task,
        (step st (ClickToggle task)).2
        = [ mkWrite uid
              (tasksPayload (toggle (tasks st) (originalIndex (tasks st) task)))
              true ])
  /\ (step st (ClickClearAll true)).2 = [ mkWrite uid (tasksPayload []) true ]
  /\ (step st ClickTheme).2
     = [ mkWrite uid (preferencesPayload (negb (darkMode st))) true ]
  /\ (forall s, (step st (ChangeNewTask s)).2 = [])
  /\ (forall p, (step st (ChangePriority p)).2 = [])
  /\ (step st (ClickClearAll false)).2 = [].
Proof.
  intros Hl. pose proof Hl as (Hu & Ht & Hf).
  split; [|split; [|split; [|split; [|split; [|split; [|split]]]]]].
  - intros now Hnb. by apply step_addTask_loaded.
  - intros task.
    by rewrite (step_SetTasks_loaded uid st (ClickDelete task)
                  (remove (tasks st) (originalIndex (tasks st) task))
                  Hl eq_refl).
  - intros task.
    by rewrite (step_SetTasks_loaded uid st (ClickToggle task)
                  (toggle (tasks st) (originalIndex (tasks st) task))
                  Hl eq_refl).
  - by rewrite (step_SetTasks_loaded uid st (ClickClearAll true) [] Hl eq_refl).
  - unfold step, handle, toggleDarkMode. cbn [snd].
    rewrite (effects_loaded uid); [|done..].
    unfold apply_updates.
    cbn [existsb is_SetTasks orb foldl apply_update darkMode app].
    rewrite bool_decide_eq_false_2; [done|]. by destruct (darkMode st).
  - intros s. unfold step, handle. cbn [snd].
    rewrite (effects_loaded uid); [|done..].
    unfold apply_updates.
    cbn [existsb is_SetTasks orb foldl apply_update darkMode app].
    by rewrite bool_decide_eq_true_2.
  - intros p. unfold step, handle. cbn [snd].
    rewrite (effects_loaded uid); [|done..].
    unfold apply_updates.
    cbn [existsb is_SetTasks orb foldl apply_update darkMode app].
    by rewrite bool_decide_eq_true_2.
  - unfold step, handle, clearAllTasks. cbn [snd].
    rewrite (effects_loaded uid); [|done..].
    unfold apply_updates.
    cbn [existsb is_SetTasks orb foldl apply_update darkMode app].
    by rewrite bool_decide_eq_true_2.
Qed.

Lemma loaded_writes_witness :
  (step sampleState (ClickClearAll true)).2
  = [ mkWrite "u1" (tasksPayload []) true ]
  /\ (step sampleState ClickTheme).2
     = [ mkWrite "u1" (preferencesPayload true) true ].
Proof.
  assert (Hl : loadedFor "u1" sampleState) by (repeat split).
  destruct (loaded_writes "u1" sampleState Hl)
    as (_ & _ & _ & H1 & H2 & _).
  split; [exact H1 | exact H2].
Defined.

(** ** Clearing the list *)

(** X6. The button that clears the list is on the page exactly when the
    form is shown and the list is not empty.  Declining the confirmation
    changes nothing and writes nothing; confirming empties the list, keeps
    every other field of the state, and takes the button off the page. *)
Theorem clearAllTasks_spec (st : AppState) (c : bool) :
  (rendered st (ClickClearAll c) = true
   <-> loading st = false /\ tasks st <> [])
  /\ step st (ClickClearAll false) = (st, [])
  /\ (step st (ClickClearAll true)).1
     = mkAppState [] (newTask st) (newPriority st) (userId st) (loading st)
                  (isInitialLoadDone st) (darkMode st)
  /\ rendered (step st (ClickClearAll true)).1 (ClickClearAll c) = false.
Proof.
  split; [|split; [|split]].
  - unfold rendered, totalTasks. rewrite andb_true_iff, negb_true_iff.
    rewrite Z.ltb_lt. destruct (tasks st) as [|t l].
    + split; intros [H1 H2]; [cbn in H2; lia|done].
    + rewrite length_cons. split; intros [H1 _]; (split; [done|]); [done|lia].
  - unfold step, handle, clearAllTasks, afterEffects, effects, apply_updates.
    cbn [foldl existsb]. by rewrite !bool_decide_eq_true_2.
  - unfold step, handle, clearAllTasks. cbn [fst].
    by rewrite afterEffects_same_userId.
  - unfold step, handle, clearAllTasks. cbn [fst].
    rewrite afterEffects_same_userId by done.
    unfold rendered, apply_updates. cbn [foldl apply_update tasks loading].
    apply andb_false_r.
Qed.

(** ** The rows of the list *)

Lemma map_from_no_index {A B} (f : A -> B) (i : Z) (l : list A) :
  JS.map_from (fun x _ => f x) i l = f <$> l.
Proof.
  revert i. induction l as [|x l IH]; intros i; [done|].
  cbn [JS.map_from]. by rewrite IH.
Qed.

Lemma displayedItems_fmap (l : list Task) :
  displayedItems l
  = (fun task => (task, originalIndex l task)) <$> sortedTasks l.
Proof. unfold displayedItems, JS.map. apply map_from_no_index. Qed.

(** The first element that satisfies a decidable property. *)
Lemma first_match_split {A} (P : A -> Prop) `{!forall x, Decision (P x)}
    (l : list A) (x : A) :
  x ∈ l -> P x ->
  exists l1 t l2, l = l1 ++ t :: l2 /\ P t /\ Forall (fun y => ~ P y) l1.
Proof.
  induction l as [|y l IH]; intros Hin Hx; [by apply elem_of_nil in Hin|].
  destruct (decide (P y)) as [Hy|Hy].
  - exists [], y, l. by repeat split.
  - apply elem_of_cons in Hin as [->|Hin]; [done|].
    destruct (IH Hin Hx) as (l1 & t & l2 & -> & Ht & Hl1).
    exists (y :: l1), t, l2. repeat split; [done|]. by constructor.
Qed.

(** [originalIndex] is the position of the first task of the list that
    has the timestamp of the task asked for. *)
Lemma originalIndex_first (l : list Task) (task : Task) :
  task ∈ l ->
  exists l1 t l2,
    l = l1 ++ t :: l2
    /\ createdAt t = createdAt task
    /\ Forall (fun x => createdAt x <> createdAt task) l1
    /\ originalIndex l task = Z.of_nat (length l1).
Proof.
  intros Hin.
  destruct (first_match_split (fun x => createdAt x = createdAt task)
              l task Hin eq_refl) as (l1 & t & l2 & -> & Ht & Hl1).
  exists l1, t, l2. repeat split; [done..|].
  unfold originalIndex, JS.findIndex.
  rewrite findIndex_from_found; [lia| |by apply Z.eqb_eq].
  eapply Forall_impl; [exact Hl1|]. intros x Hx. by apply Z.eqb_neq.
Qed.

(** X7. Every row of the list carries a valid index, never [-1]: the
    position of the first task of the canonical list that has the
    timestamp of the row's task.  Its delete button removes that one task
    and its check box flips that one task, every other task staying in
    place; there are as many rows as tasks, in the order of
    [sortedTasks]. *)
Theorem displayedItems_spec (l : list Task) :
  length (displayedItems l) = length l
  /\ (displayedItems l).*1 = sortedTasks l
  /\ (forall task idx,
        (task, idx) ∈ displayedItems l ->
        0 <= idx < Z.of_nat (length l)
        /\ exists l1 t l2,
            l = l1 ++ t :: l2
            /\ idx = Z.of_nat (length l1)
            /\ createdAt t = createdAt task
            /\ Forall (fun x => createdAt x <> createdAt task) l1
            /\ remove l idx = l1 ++ l2
            /\ toggle l idx = l1 ++ flipCompleted t :: l2).
Proof.
  rewrite displayedItems_fmap.
  split; [|split].
  - rewrite length_fmap. unfold sortedTasks.
    by rewrite (sort_Permutation compareTasks l).
  - rewrite <- list_fmap_compose. apply list_fmap_id.
  - intros task idx Hin.
    apply list_elem_of_fmap in Hin as (task' & [= -> ->] & Hin).
    unfold sortedTasks in Hin. rewrite sort_Permutation in Hin.
    destruct (originalIndex_first l task' Hin)
      as (l1 & t & l2 & -> & Ht & Hl1 & Hidx).
    rewrite Hidx, length_app, length_cons. split; [lia|].
    exists l1, t, l2. repeat split; [done..| |].
    + by rewrite remove_delete, delete_middle.
    + by rewrite toggle_alter, alter_middle.
Qed.

Lemma displayedItems_spec_witness :
  length (displayedItems sampleTasks) = 2%nat
  /\ 0 <= 1 < Z.of_nat (length sampleTasks).
Proof.
  destruct (displayedItems_spec sampleTasks) as (H1 & _ & H2).
  split; [exact H1|].
  assert (Hin : (mkTask (JS.of_string "b") true high 10, 1)
                ∈ displayedItems sampleTasks) by (vm_compute; left).
  exact (proj1 (H2 _ _ Hin)).
Defined.

(** X8. The rows carry pairwise different indices exactly when the tasks
    have pairwise different timestamps, and then each row carries the
    position of its own task; with a timestamp that occurs twice, two rows
    carry one index and act on one task. *)
Theorem displayedItems_distinct (l : list Task) :
  (NoDup (displayedItems l).*2 <-> NoDup (createdAt <$> l))
  /\ (NoDup (createdAt <$> l) ->
      forall task idx,
        (task, idx) ∈ displayedItems l -> l !! Z.to_nat idx = Some task).
Proof.
  assert (Hown : NoDup (createdAt <$> l) ->
                 forall task, task ∈ sortedTasks l ->
                   l !! Z.to_nat (originalIndex l task) = Some task).
  { intros Hnd task Hin. unfold sortedTasks in Hin.
    rewrite sort_Permutation in Hin.
    by destruct (originalIndex_remove l task Hin Hnd) as (_ & ? & _). }
  assert (Hsnd : (displayedItems l).*2 = originalIndex l <$> sortedTasks l).
  { rewrite displayedItems_fmap, <- list_fmap_compose. done. }
  split; [split|].
  - rewrite Hsnd. intros Hnd.
    assert (Hkeys : originalIndex l <$> sortedTasks l
                    = (fun ts => JS.findIndex (fun t => createdAt t =? ts) l)
                      <$> (createdAt <$> sortedTasks l)).
    { by rewrite <- list_fmap_compose. }
    rewrite Hkeys in Hnd. apply NoDup_fmap_1 in Hnd.
    unfold sortedTasks in Hnd. by rewrite sort_Permutation in Hnd.
  - intros Hnd. rewrite Hsnd.
    apply NoDup_fmap_2_strong.
    + intros x y Hx Hy Heq.
      pose proof (Hown Hnd x Hx) as Hlx. pose proof (Hown Hnd y Hy) as Hly.
      rewrite Heq in Hlx. congruence.
    + apply NoDup_fmap_1 with (f := createdAt).
      unfold sortedTasks. by rewrite sort_Permutation.
  - intros Hnd task idx Hin. rewrite displayedItems_fmap in Hin.
    apply list_elem_of_fmap in Hin as (task' & [= -> ->] & Hin).
    by apply Hown.
Qed.

Lemma displayedItems_distinct_witness :
  sampleTasks !! Z.to_nat 1 = Some (mkTask (JS.of_string "b") true high 10).
Proof.
  assert (Hnd : NoDup (createdAt <$> sampleTasks)).
  { vm_compute.
    repeat constructor; inversion 1 as [|? ? ? Hin]; inversion Hin. }
  assert (Hin : (mkTask (JS.of_string "b") true high 10, 1)
                ∈ displayedItems sampleTasks) by (vm_compute; left).
  exact (proj2 (displayedItems_distinct sampleTasks) Hnd _ _ Hin).
Defined.

(** ** More on the display order *)

Lemma sortedTasks_sorted_id (l : list Task) :
  StronglySorted displayedBefore l -> sortedTasks l = l.
Proof. intros Hs. symmetry. by apply sortedTasks_unique. Qed.

(** X9. The display shows every task once: it has as many tasks as the
    list, and is empty exactly when the list is, which is when the page
    says that there is no task.  Sorting what is already in display order
    changes nothing; in particular sorting twice is sorting once. *)
Theorem sortedTasks_fixed (l : list Task) :
  length (sortedTasks l) = length l
  /\ (sortedTasks l = [] <-> l = [])
  /\ (StronglySorted displayedBefore l -> sortedTasks l = l)
  /\ sortedTasks (sortedTasks l) = sortedTasks l.
Proof.
  assert (Hperm : sortedTasks l ≡ₚ l) by apply sort_Permutation.
  split; [by rewrite Hperm|]. split; [|split].
  - split; intros H.
    + rewrite H in Hperm. by apply Permutation_nil_l in Hperm.
    + by rewrite H.
  - apply sortedTasks_sorted_id.
  - apply sortedTasks_sorted_id, sortedTasks_StronglySorted.
Qed.

Lemma sortedTasks_fixed_witness :
  sortedTasks [ mkTask (JS.of_string "b") true high 10;
                mkTask (JS.of_string "a") false low 50 ]
  = [ mkTask (JS.of_string "b") true high 10;
      mkTask (JS.of_string "a") false low 50 ].
Proof.
  refine (proj1 (proj2 (proj2 (sortedTasks_fixed _))) _).
  repeat constructor.
Defined.

Section SortRelated.
Context {A : Type} (cmp : A -> A -> Z) (R : A -> A -> Prop).
Hypothesis cmp_related :
  forall x x' y y', R x x' -> R y y' -> cmp x y = cmp x' y'.

Lemma insert_Forall2 (x x' : A) (l l' : list A) :
  R x x' -> Forall2 R l l' ->
  Forall2 R (JS.insert cmp x l) (JS.insert cmp x' l').
Proof.
  intros Hx. induction 1 as [|y y' l l' Hy Hl IH]; cbn [JS.insert].
  - by repeat constructor.
  - rewrite <- (cmp_related x x' y y') by done.
    destruct (0 <? cmp x y); by repeat constructor.
Qed.

Lemma sort_Forall2 (l l' : list A) :
  Forall2 R l l' -> Forall2 R (JS.sort cmp l) (JS.sort cmp l').
Proof.
  induction 1 as [|x x' l l' Hx Hl IH]; cbn [JS.sort]; [constructor|].
  by apply insert_Forall2.
Qed.
End SortRelated.

Lemma map_from_Forall2 {A B} (R : A -> B -> Prop) (f : A -> Z -> B)
    (i : Z) (l : list A) :
  (forall x j, R x (f x j)) -> Forall2 R l (JS.map_from f i l).
Proof.
  intros Hf. revert i. induction l as [|x l IH]; intros i; cbn [JS.map_from].
  - constructor.
  - by constructor.
Qed.

Lemma toggle_display_related (l : list Task) (i : Z) :
  Forall2 (fun a b => b = a \/ b = flipCompleted a)
          (sortedTasks l) (sortedTasks (toggle l i)).
Proof.
  apply sort_Forall2.
  - intros x x' y y' [->| ->] [->| ->]; done.
  - unfold toggle, JS.map. apply map_from_Forall2.
    intros x j. destruct (j =? i); [by right|by left].
Qed.

(** X10. Ticking a check box never moves a row: whatever the index, the
    display of the toggled list is the display of the list, row by row,
    each task either as it was or with [completed] flipped; the texts, the
    priorities and the timestamps of the rows are those of before. *)
Theorem toggle_keeps_display_order (l : list Task) (i : Z) :
  Forall2 (fun a b => b = a \/ b = flipCompleted a)
          (sortedTasks l) (sortedTasks (toggle l i))
  /\ text <$> sortedTasks (toggle l i) = text <$> sortedTasks l
  /\ priority <$> sortedTasks (toggle l i) = priority <$> sortedTasks l
  /\ createdAt <$> sortedTasks (toggle l i) = createdAt <$> sortedTasks l.
Proof.
  pose proof (toggle_display_related l i) as H.
  split; [done|].
  split; [|split]; apply list_eq_Forall2, Forall2_fmap;
    (eapply Forall2_flip, Forall2_impl; [exact H|]);
    by intros a b [->| ->].
Qed.

Lemma filter_none {A} (P : A -> Prop) `{!forall x, Decision (P x)}
    (l : list A) :
  (forall x, x ∈ l -> ~ P x) -> filter P l = [].
Proof.
  induction l as [|x l IH]; intros Hn; [done|].
  rewrite filter_cons_False by (apply Hn; left).
  apply IH. intros y Hy. apply Hn. by right.
Qed.

Lemma StronglySorted_filter {A} (R : A -> A -> Prop) (P : A -> Prop)
    `{!forall x, Decision (P x)} (l : list A) :
  StronglySorted R l -> StronglySorted R (filter P l).
Proof.
  induction 1 as [|x l Hl IH Hx]; [constructor|].
  rewrite filter_cons. destruct (decide (P x)); [|done].
  constructor; [done|].
  apply Forall_forall. intros y [_ Hy]%list_elem_of_filter.
  rewrite Forall_forall in Hx. by apply Hx.
Qed.

(** A task that is more recent than every task of the list is displayed
    after the tasks of higher priority and before all the others. *)
Lemma sortedTasks_snoc_latest (l : list Task) (t : Task) :
  (forall x, x ∈ l -> createdAt x < createdAt t) ->
  sortedTasks (l ++ [t])
  = filter (fun x => prioOrder (priority t) < prioOrder (priority x))
           (sortedTasks l)
    ++ t :: filter (fun x => prioOrder (priority x) <= prioOrder (priority t))
                   (sortedTasks l).
Proof.
  intros Hlate.
  assert (Hlate' : forall x, x ∈ sortedTasks l -> createdAt x < createdAt t).
  { intros x Hx. apply Hlate. unfold sortedTasks in Hx.
    by rewrite sort_Permutation in Hx. }
  pose proof (sortedTasks_StronglySorted l) as Hs.
  symmetry. apply sortedTasks_unique.
  - apply StronglySorted_app. split; [|split].
    + intros x1 x2 [H1 _]%list_elem_of_filter Hx2.
      apply elem_of_cons in Hx2 as [->|[H2 _]%list_elem_of_filter];
        left; lia.
    + by apply StronglySorted_filter.
    + constructor; [by apply StronglySorted_filter|].
      apply Forall_forall. intros y [Hy Hin]%list_elem_of_filter.
      specialize (Hlate' y Hin). unfold displayedBefore.
      destruct (priority t), (priority y); cbn in Hy |- *;
        first [lia | left; lia | right; split; [done|lia]].
  - intros p ts.
    rewrite !filter_app, <- (sortedTasks_key_order p ts l).
    rewrite (filter_cons _ t), (filter_cons _ t []), filter_nil.
    destruct (decide (priority t = p /\ createdAt t = ts)) as [[<- <-]|Hk].
    + rewrite !list_filter_filter.
      rewrite !filter_none; [done|..];
        intros x Hx Hk; specialize (Hlate' x Hx); lia || (destruct Hk; lia)
        || (destruct Hk as [[_ ?] _]; lia).
    + rewrite List.app_nil_r.
      destruct (decide (prioOrder (priority t) < prioOrder p)) as [Hp|Hp].
      * rewrite list_filter_filter_l by (intros x [<- _]; done).
        rewrite list_filter_filter.
        rewrite (filter_none
                   (fun x => (priority x = p /\ createdAt x = ts)
                             /\ prioOrder (priority x)
                                <= prioOrder (priority t))).
        { apply List.app_nil_r. }
        intros x _ [[<- _] Hle]. lia.
      * rewrite (list_filter_filter_l _ (fun x => prioOrder (priority x)
                                             <= prioOrder (priority t)))
          by (intros x [<- _]; lia).
        rewrite list_filter_filter.
        rewrite (filter_none
                   (fun x => (priority x = p /\ createdAt x = ts)
                             /\ prioOrder (priority t)
                                < prioOrder (priority x))).
        { done. }
        intros x _ [[<- _] Hlt]. lia.
Qed.

(** X11. A task added with a time later than the timestamps of all the
    tasks of the list takes its place in the display without moving any
    other row: after the tasks of higher priority, and before the tasks of
    its own priority and those of lower priority. *)
Theorem add_display_position (st : AppState) (now : Z) :
  JS.trim (newTask st) <> [] ->
  (forall x, x ∈ tasks st -> createdAt x < now) ->
  sortedTasks (tasks (step st (ClickAdd now)).1)
  = filter (fun x => prioOrder (newPriority st) < prioOrder (priority x))
           (sortedTasks (tasks st))
    ++ mkTask (JS.trim (newTask st)) false (newPriority st) now
       :: filter (fun x => prioOrder (priority x) <= prioOrder (newPriority st))
                 (sortedTasks (tasks st)).
Proof.
  intros Hnb Hlate. rewrite step_addTask_state by done. cbn [tasks].
  by rewrite sortedTasks_snoc_latest.
Qed.

Lemma add_display_position_witness :
  sortedTasks (tasks (step sampleState (ClickAdd 1700)).1)
  = [ mkTask (JS.of_string "Buy milk") false high 1700;
      mkTask (JS.of_string "b") true high 10;
      mkTask (JS.of_string "a") false low 50 ].
Proof.
  assert (Hnb : JS.trim (newTask sampleState) <> [])
    by (vm_compute; discriminate).
  assert (Hlate : forall x, x ∈ tasks sampleState -> createdAt x < 1700).
  { intros x Hx. cbn in Hx.
    repeat (apply elem_of_cons in Hx as [->|Hx]; [cbn; lia|]).
    by apply elem_of_nil in Hx. }
  exact (add_display_position sampleState 1700 Hnb Hlate).
Defined.

(** ** The text of an added task *)

Lemma trimStart_split (s : JS.jsstring) :
  exists pre,
    s = pre ++ JS.trimStart s
    /\ Forall (fun c => JS.isWhiteSpace c = true) pre.
Proof.
  induction s as [|c s (pre & Hs & Hpre)]; [by exists []|].
  cbn [JS.trimStart]. destruct (JS.isWhiteSpace c) eqn:Hc.
  - exists (c :: pre). split; [by rewrite Hs at 1|by constructor].
  - by exists [].
Qed.

Lemma trimEnd_split (s : JS.jsstring) :
  exists post,
    s = JS.trimEnd s ++ post
    /\ Forall (fun c => JS.isWhiteSpace c = true) post.
Proof.
  destruct (trimStart_split (reverse s)) as (pre & Hs & Hpre).
  exists (reverse pre). split; [|by apply Forall_reverse].
  unfold JS.trimEnd. rewrite <- reverse_app, <- Hs.
  by rewrite reverse_involutive.
Qed.

Lemma trimStart_id (s : JS.jsstring) :
  (forall c t, s = c :: t -> JS.isWhiteSpace c = false) ->
  JS.trimStart s = s.
Proof.
  destruct s as [|c s]; [done|]. intros H. cbn [JS.trimStart].
  by rewrite (H c s eq_refl).
Qed.

Lemma trimEnd_last (s t : JS.jsstring) (d : N) :
  JS.trimEnd s = t ++ [d] -> JS.isWhiteSpace d = false.
Proof.
  unfold JS.trimEnd. intros H. apply (f_equal reverse) in H.
  rewrite reverse_involutive, reverse_snoc in H.
  by apply trimStart_head in H.
Qed.

Lemma trim_head (s t : JS.jsstring) (c : N) :
  JS.trim s = c :: t -> JS.isWhiteSpace c = false.
Proof.
  unfold JS.trim. intros H.
  destruct (trimEnd_split (JS.trimStart s)) as (post & Hs & _).
  rewrite H in Hs. by apply trimStart_head in Hs.
Qed.

Lemma trim_idempotent (s : JS.jsstring) : JS.trim (JS.trim s) = JS.trim s.
Proof.
  assert (Hstart : JS.trimStart (JS.trim s) = JS.trim s).
  { apply trimStart_id. intros c t. apply trim_head. }
  unfold JS.trim at 1. rewrite Hstart. unfold JS.trimEnd.
  rewrite trimStart_id; [apply reverse_involutive|].
  intros c t H. apply (f_equal reverse) in H.
  rewrite reverse_involutive, reverse_cons in H.
  unfold JS.trim in H. by apply trimEnd_last in H.
Qed.

(** X12. The text of the task that a successful add appends is the typed
    text without the white space around it: it is not empty, the typed
    text is that text between two runs of white space, it neither starts
    nor ends with white space, and trimming it again changes nothing. *)
Theorem added_text_trimmed (st : AppState) (now : Z) :
  JS.trim (newTask st) <> [] ->
  exists task,
    last (tasks (step st (ClickAdd now)).1) = Some task
    /\ text task <> []
    /\ (exists pre post,
          newTask st = pre ++ text task ++ post
          /\ Forall (fun c => JS.isWhiteSpace c = true) pre
          /\ Forall (fun c => JS.isWhiteSpace c = true) post)
    /\ (forall c t, text task = c :: t -> JS.isWhiteSpace c = false)
    /\ (forall t d, text task = t ++ [d] -> JS.isWhiteSpace d = false)
    /\ JS.trim (text task) = text task.
Proof.
  intros Hnb. rewrite step_addTask_state by done. cbn [tasks].
  eexists. split; [apply last_snoc|]. cbn [text].
  split; [done|]. split; [|split; [|split]].
  - destruct (trimStart_split (newTask st)) as (pre & Hs & Hpre).
    destruct (trimEnd_split (JS.trimStart (newTask st)))
      as (post & Hs' & Hpost).
    exists pre, post. split; [|done].
    unfold JS.trim. by rewrite <- Hs'.
  - intros c t. apply trim_head.
  - intros t d. unfold JS.trim. apply trimEnd_last.
  - apply trim_idempotent.
Qed.

Lemma added_text_trimmed_witness :
  exists task,
    last (tasks (step sampleState (ClickAdd 1700)).1) = Some task
    /\ text task <> []
    /\ JS.trim (text task) = text task.
Proof.
  assert (Hnb : JS.trim (newTask sampleState) <> [])
    by (vm_compute; discriminate).
  destruct (added_text_trimmed sampleState 1700 Hnb)
    as (task & H1 & H2 & _ & _ & _ & H3).
  exists task. split; [exact H1|]. split; [exact H2 | exact H3].
Defined.

(** ** What a step and a run write *)

Lemma saveTasksEffect_cases (st : AppState) :
  saveTasksEffect st = []
  \/ exists uid,
      userId st = Some uid
      /\ saveTasksEffect st = [ mkWrite uid (tasksPayload (tasks st)) true ].
Proof.
  unfold saveTasksEffect. destruct (userId st) as [uid|]; [|by left].
  destruct (_ || _); [by left|right]. by exists uid.
Qed.

Lemma savePreferencesEffect_cases (st : AppState) :
  savePreferencesEffect st = []
  \/ exists uid,
      userId st = Some uid
      /\ savePreferencesEffect st
         = [ mkWrite uid (preferencesPayload (darkMode st)) true ].
Proof.
  unfold savePreferencesEffect. destruct (userId st) as [uid|]; [|by left].
  destruct (_ || _); [by left|right]. by exists uid.
Qed.

Lemma step_fields (st : AppState) (ev : Event) :
  tasks (step st ev).1 = tasks (apply_updates st (handle st ev))
  /\ darkMode (step st ev).1 = darkMode (apply_updates st (handle st ev))
  /\ userId (step st ev).1 = userId (apply_updates st (handle st ev))
  /\ isInitialLoadDone (step st ev).1
     = isInitialLoadDone (apply_updates st (handle st ev)).
Proof. unfold step. cbn [fst]. apply afterEffects_fields. Qed.

(** X13. An event issues at most two writes: at most one write of the
    tasks, then at most one write of the theme, each with the value of the
    new state and to the document of the identity of the new state.  So a
    run of [n] events issues at most [2 * n] writes. *)
Theorem writes_bounded (st : AppState) (evs : list Event) :
  (forall ev,
      exists wt wp,
        (step st ev).2 = wt ++ wp
        /\ (wt = []
            \/ exists uid,
                userId (step st ev).1 = Some uid
                /\ wt = [ mkWrite uid (tasksPayload (tasks (step st ev).1))
                            true ])
        /\ (wp = []
            \/ exists uid,
                userId (step st ev).1 = Some uid
                /\ wp = [ mkWrite uid
                            (preferencesPayload (darkMode (step st ev).1))
                            true ]))
  /\ (length (run st evs).2 <= 2 * length evs)%nat.
Proof.
  assert (Hstep : forall st ev,
             exists wt wp,
               (step st ev).2 = wt ++ wp
               /\ (wt = []
                   \/ exists uid,
                       userId (step st ev).1 = Some uid
                       /\ wt = [ mkWrite uid
                                   (tasksPayload (tasks (step st ev).1))
                                   true ])
               /\ (wp = []
                   \/ exists uid,
                       userId (step st ev).1 = Some uid
                       /\ wp = [ mkWrite uid
                                   (preferencesPayload
                                      (darkMode (step st ev).1))
                                   true ])).
  { clear st evs. intros st ev.
    destruct (step_fields st ev) as (Ht & Hd & Hu & _).
    rewrite Ht, Hd, Hu. unfold step, effects. cbn [snd].
    eexists _, _. split; [done|]. split.
    - destruct (_ || _); [|by left]. apply saveTasksEffect_cases.
    - destruct (_ || _); [|by left]. apply savePreferencesEffect_cases. }
  split; [apply Hstep|].
  revert st. induction evs as [|ev evs IH]; intros st; [done|].
  rewrite run_cons. cbn [snd]. rewrite length_app, length_cons.
  specialize (IH (step st ev).1).
  destruct (Hstep st ev) as (wt & wp & -> & Hwt & Hwp).
  rewrite length_app.
  assert (length wt <= 1)%nat
    by (destruct Hwt as [->|(? & _ & ->)]; cbn; lia).
  assert (length wp <= 1)%nat
    by (destruct Hwp as [->|(? & _ & ->)]; cbn; lia).
  lia.
Qed.

(** ** The identity and the flag over a run *)

Lemma step_flag_monotone (st : AppState) (ev : Event) :
  isInitialLoadDone st = true -> isInitialLoadDone (step st ev).1 = true.
Proof.
  intros Hf. destruct (step_fields st ev) as (_ & _ & _ & ->).
  destruct ev as [[u|]|u d|s|p|now|task|task|[]|]; try done.
  - cbn [handle]. case_bool_decide; [|done].
    destruct d as [data|]; [|done].
    unfold onSnapshotCallback. by destruct (snapshotDarkMode data).
  - cbn [handle]. unfold addTask. by destruct (JS.trim (newTask st)).
Qed.

(** X14. Nothing unsets the flag and nothing clears the identity: once
    [isInitialLoadDone] is true it is true after every run, and once an
    identity is known one is known after every run.  When the provider
    says that nobody is signed in, the component asks for a sign-in and
    keeps its state, identity included, and writes nothing. *)
Theorem flag_and_identity_kept (st : AppState) (evs : list Event) :
  (isInitialLoadDone st = true -> isInitialLoadDone (run st evs).1 = true)
  /\ (is_Some (userId st) -> is_Some (userId (run st evs).1))
  /\ handle st (AuthStateChanged None) = [ SignInAnonymously ]
  /\ step st (AuthStateChanged None) = (st, []).
Proof.
  split; [|split; [|split]].
  - revert st. induction evs as [|ev evs IH]; intros st Hf; [done|].
    rewrite run_cons. cbn [fst]. by apply IH, step_flag_monotone.
  - revert st. induction evs as [|ev evs IH]; intros st Hu; [done|].
    rewrite run_cons. cbn [fst]. apply IH.
    destruct (step_fields st ev) as (_ & _ & -> & _).
    rewrite handle_userId. by destruct ev as [[u|]|? ?|?|?|?|?|?|?|].
  - done.
  - unfold step, handle, onAuthCallback, afterEffects, effects, apply_updates.
    cbn [foldl apply_update existsb is_SetTasks].
    by rewrite !bool_decide_eq_true_2.
Qed.

Lemma flag_and_identity_kept_witness :
  isInitialLoadDone
    (run sampleState
         [ AuthStateChanged None; AuthStateChanged (Some "u2"%string);
           ClickTheme ]).1 = true.
Proof.
  exact (proj1 (flag_and_identity_kept sampleState _) eq_refl).
Defined.

(** X15. When the provider announces another identity after the first
    snapshot was processed, the flag is still set, so both saving effects
    run at once: the tasks and the theme that were loaded for the former
    identity are written to the document of the new one, before any
    snapshot of the new one; the component then shows the spinner and
    listens to the new document. *)
Theorem identity_change_writes (st : AppState) (u : string) :
  isInitialLoadDone st = true ->
  userId st <> Some u ->
  u <> EmptyString ->
  step st (AuthStateChanged (Some u))
  = (mkAppState (tasks st) (newTask st) (newPriority st) (Some u) true true
                (darkMode st),
     [ mkWrite u (tasksPayload (tasks st)) true;
       mkWrite u (preferencesPayload (darkMode st)) true ])
  /\ subscription (step st (AuthStateChanged (Some u))).1 = Some u.
Proof.
  intros Hf Hu Hne.
  assert (Ht : truthy (Some u) = true).
  { cbn. by rewrite bool_decide_eq_false_2. }
  assert (Hstep : step st (AuthStateChanged (Some u))
                  = (mkAppState (tasks st) (newTask st) (newPriority st)
                       (Some u) true true (darkMode st),
                     [ mkWrite u (tasksPayload (tasks st)) true;
                       mkWrite u (preferencesPayload (darkMode st)) true ])).
  { unfold step, handle, onAuthCallback, afterEffects, effects,
      saveTasksEffect, savePreferencesEffect, apply_updates.
    cbn [foldl apply_update existsb is_SetTasks userId isInitialLoadDone
           tasks darkMode newTask newPriority loading orb].
    rewrite (bool_decide_eq_false_2 (userId st = Some u)) by done.
    rewrite Ht, Hf. by rewrite !bool_decide_eq_true_2 by done. }
  split; [done|]. rewrite Hstep. unfold subscription. cbn [fst userId].
  by rewrite Ht.
Qed.

Lemma identity_change_writes_witness :
  (step sampleState (AuthStateChanged (Some "u2"%string))).2
  = [ mkWrite "u2" (tasksPayload sampleTasks) true;
      mkWrite "u2" (preferencesPayload false) true ].
Proof.
  assert (H1 : userId sampleState <> Some "u2"%string) by discriminate.
  assert (H2 : "u2"%string <> EmptyString) by discriminate.
  exact (f_equal snd (proj1 (identity_change_writes sampleState "u2"
                               eq_refl H1 H2))).
Defined.

(** X16. Every snapshot that reaches the callback sets the flag, hides
    the spinner, and is written back: a write of the tasks with the list
    that was just received, and a write of the theme when the flag was
    not set before or the theme changed.  So the first snapshot of a
    document that does not exist creates it, with an empty task list and
    the local theme. *)
Theorem snapshot_writes (st : AppState) (uid : string)
    (docSnap : option DocData) :
  subscription st = Some uid ->
  isInitialLoadDone (step st (Snapshot uid docSnap)).1 = true
  /\ loading (step st (Snapshot uid docSnap)).1 = false
  /\ (step st (Snapshot uid docSnap)).2
     = mkWrite uid (tasksPayload (tasks (step st (Snapshot uid docSnap)).1))
               true
       :: (if isInitialLoadDone st
              && bool_decide (darkMode st
                              = darkMode (step st (Snapshot uid docSnap)).1)
           then []
           else [ mkWrite uid
                    (preferencesPayload
                       (darkMode (step st (Snapshot uid docSnap)).1))
                    true ]).
Proof.
  intros Hsub. pose proof (subscription_Some _ _ Hsub) as Hu.
  assert (Ht : truthy (Some uid) = true).
  { unfold subscription in Hsub. rewrite Hu in Hsub.
    by destruct (truthy (Some uid)). }
  unfold step, handle. rewrite bool_decide_eq_true_2 by done.
  destruct st as [l nt np u ld fl dm]. cbn in Hu. subst u.
  destruct docSnap as [data|]; unfold onSnapshotCallback;
    [destruct (snapshotDarkMode data) as [b|]|];
    unfold afterEffects, effects, saveTasksEffect, savePreferencesEffect,
      apply_updates;
    cbn [app foldl apply_update existsb is_SetTasks userId isInitialLoadDone
           tasks darkMode newTask newPriority loading orb fst snd];
    rewrite ?Ht, ?bool_decide_eq_true_2 by done;
    cbn [negb orb andb app];
    (split; [done|]); (split; [done|]);
    cbn [tasks darkMode];
    repeat match goal with x : bool |- _ => destruct x end;
    reflexivity.
Qed.

Lemma snapshot_writes_witness :
  (step (initialState true) (AuthStateChanged (Some "u1"%string))).2 = []
  /\ (step (step (initialState true)
                 (AuthStateChanged (Some "u1"%string))).1
           (Snapshot "u1" None)).2
     = [ mkWrite "u1" (tasksPayload []) true;
         mkWrite "u1" (preferencesPayload true) true ].
Proof.
  split; [vm_compute; reflexivity|].
  exact (proj2 (proj2 (snapshot_writes
                         (step (initialState true)
                               (AuthStateChanged (Some "u1"%string))).1
                         "u1" None eq_refl))).
Defined.

(** ** The spinner and the form *)

Lemma step_asMounted (st : AppState) (ev : Event) :
  asMounted st -> rendered st ev = true -> asMounted (step st ev).1.
Proof.
  destruct st as [l nt np u ld fl dm]. unfold asMounted. cbn.
  intros [H1 H2] Hr.
  destruct ev as [[v|]|v d|s|p|now|task|task|c|]; unfold step, handle;
    cbn [rendered loading] in Hr.
  - unfold onAuthCallback, afterEffects, apply_updates.
    cbn [foldl apply_update userId fst].
    destruct (_ && _); cbn; [split; [done|exact H2]|by split].
  - unfold onAuthCallback, afterEffects, apply_updates.
    cbn [foldl apply_update userId fst].
    rewrite bool_decide_eq_true_2 by done. by split.
  - case_bool_decide.
    + rewrite afterEffects_same_userId.
      * destruct d as [data|]; unfold onSnapshotCallback;
          [destruct (snapshotDarkMode data)|]; by split.
      * destruct d as [data|]; unfold onSnapshotCallback;
          [destruct (snapshotDarkMode data)|]; done.
    + rewrite afterEffects_same_userId by done. by split.
  - rewrite afterEffects_same_userId by done. cbn.
    apply negb_true_iff in Hr. subst ld. rewrite H1 by done. by split.
  - rewrite afterEffects_same_userId by done. cbn.
    apply negb_true_iff in Hr. subst ld. rewrite H1 by done. by split.
  - apply negb_true_iff in Hr. subst ld. specialize (H1 eq_refl). subst fl.
    rewrite afterEffects_same_userId.
    + unfold addTask. cbn [newTask]. by destruct (JS.trim nt).
    + unfold addTask. cbn [newTask]. by destruct (JS.trim nt).
  - apply andb_true_iff in Hr as [Hr _].
    apply negb_true_iff in Hr. subst ld. specialize (H1 eq_refl). subst fl.
    rewrite afterEffects_same_userId by done. by split.
  - apply andb_true_iff in Hr as [Hr _].
    apply negb_true_iff in Hr. subst ld. specialize (H1 eq_refl). subst fl.
    rewrite afterEffects_same_userId by done. by split.
  - apply andb_true_iff in Hr as [Hr _].
    apply negb_true_iff in Hr. subst ld. specialize (H1 eq_refl). subst fl.
    rewrite afterEffects_same_userId by (by destruct c).
    by destruct c.
  - rewrite afterEffects_same_userId by done. by split.
Qed.

Lemma run_asMounted (evs : list Event) (st : AppState) :
  asMounted st -> renderedRun st evs = true -> asMounted (run st evs).1.
Proof.
  revert st. induction evs as [|ev evs IH]; intros st Hst Hr; [done|].
  cbn [renderedRun] in Hr. apply andb_true_iff in Hr as [Hr1 Hr2].
  rewrite run_cons. cbn [fst]. apply IH; [|done].
  by apply step_asMounted.
Qed.

(** X17. In a run whose events all come from controls that are on the
    page, the form and the rows are shown only once the first snapshot was
    processed; until then the page shows the spinner, and the task list,
    the input text and the priority selection are still those of the
    mount: empty, empty, medium. *)
Theorem spinner_until_loaded (saved : bool) (evs : list Event) :
  renderedRun (initialState saved) evs = true ->
  (loading (run (initialState saved) evs).1 = false ->
   isInitialLoadDone (run (initialState saved) evs).1 = true)
  /\ (isInitialLoadDone (run (initialState saved) evs).1 = false ->
      loading (run (initialState saved) evs).1 = true
      /\ tasks (run (initialState saved) evs).1 = []
      /\ newTask (run (initialState saved) evs).1 = []
      /\ newPriority (run (initialState saved) evs).1 = medium).
Proof.
  intros Hr.
  assert (H0 : asMounted (initialState saved)) by (by split).
  destruct (run_asMounted evs _ H0 Hr) as [H1 H2].
  split; [done|]. intros Hf. split; [|by apply H2].
  destruct (loading _); [done|]. rewrite H1 in Hf; done.
Qed.

Lemma spinner_until_loaded_witness :
  tasks (run (initialState false)
             [ AuthStateChanged (Some "u1"%string); ClickTheme ]).1 = [].
Proof.
  destruct (spinner_until_loaded false
              [ AuthStateChanged (Some "u1"%string); ClickTheme ] eq_refl)
    as [_ H].
  exact (proj1 (proj2 (H eq_refl))).
Defined.

(** X18. The guard never drops a change that the user made: in a run
    whose events all come from controls that are on the page, when a
    control of the form or of a row calls [setTasks] and the identity is
    known, the new list is written, once, as the whole list. *)
Theorem rendered_change_written (saved : bool) (evs : list Event)
    (ev : Event) (uid : string) :
  renderedRun (initialState saved) evs = true ->
  rendered (run (initialState saved) evs).1 ev = true ->
  isLocalMutation ev = true ->
  existsb is_SetTasks (handle (run (initialState saved) evs).1 ev) = true ->
  userId (run (initialState saved) evs).1 = Some uid ->
  uid <> EmptyString ->
  (step (run (initialState saved) evs).1 ev).2
  = [ mkWrite uid
        (tasksPayload (tasks (step (run (initialState saved) evs).1 ev).1))
        true ].
Proof.
  intros Hrun Hr Hloc Hset Hu Hne.
  assert (H0 : asMounted (initialState saved)) by (by split).
  destruct (run_asMounted evs _ H0 Hrun) as [Hload _].
  set (st := (run (initialState saved) evs).1) in *.
  assert (Hl : loadedFor uid st).
  { split; [done|]. split.
    - rewrite Hu. cbn. by rewrite bool_decide_eq_false_2.
    - apply Hload.
      destruct ev as [?|? ?|?|?|?|?|?|?|]; cbn in Hr, Hloc, Hset; try done;
        try (by apply negb_true_iff in Hr);
        by apply andb_true_iff in Hr as [?%negb_true_iff _]. }
  destruct ev as [?|? ?|?|?|now|task|task|[]|]; cbn in Hloc, Hset; try done.
  - apply step_addTask_loaded; [done|].
    intros Hb. unfold addTask in Hset. by rewrite Hb in Hset.
  - by rewrite (step_SetTasks_loaded uid st (ClickDelete task)
                  (remove (tasks st) (originalIndex (tasks st) task))
                  Hl eq_refl).
  - by rewrite (step_SetTasks_loaded uid st (ClickToggle task)
                  (toggle (tasks st) (originalIndex (tasks st) task))
                  Hl eq_refl).
  - by rewrite (step_SetTasks_loaded uid st (ClickClearAll true) []
                  Hl eq_refl).
Qed.

Lemma rendered_change_written_witness :
  (step (run (initialState false)
             [ AuthStateChanged (Some "u1"%string);
               Snapshot "u1" (Some sampleDoc) ]).1
        (ClickClearAll true)).2
  = [ mkWrite "u1" (tasksPayload []) true ].
Proof.
  assert (Hne : "u1"%string <> EmptyString) by discriminate.
  exact (rendered_change_written false
           [ AuthStateChanged (Some "u1"%string);
             Snapshot "u1" (Some sampleDoc) ]
           (ClickClearAll true) "u1" eq_refl eq_refl eq_refl eq_refl
           eq_refl Hne).
Defined.

(** ** The theme across a reload *)






(** ** Ticking and deleting together *)

Lemma originalIndex_toggle (l : list Task) (i : Z) (task : Task) :
  originalIndex (toggle l i) task = originalIndex l task.
Proof.
  unfold originalIndex, toggle, JS.findIndex, JS.map.
  generalize 0 at 1 3 as k. generalize 0 as m.
  induction l as [|x l IH]; intros m k; [done|].
  cbn [JS.map_from JS.findIndex_from].
  assert (Hx : createdAt (if m =? i then flipCompleted x else x)
               = createdAt x) by (by destruct (m =? i)).
  rewrite Hx. destruct (createdAt x =? createdAt task); [done|]. apply IH.
Qed.

(** X20. Ticking and deleting compose as expected, at every index, in
    range or not: deleting a task that was just ticked is deleting it;
    ticking two rows gives the same list in either order; and a tick
    changes the index of no row, since it keeps the timestamps. *)
Theorem toggle_remove_compose (l : list Task) (i j : Z) :
  remove (toggle l i) i = remove l i
  /\ toggle (toggle l i) j = toggle (toggle l j) i
  /\ (forall task, originalIndex (toggle l i) task = originalIndex l task)
  /\ (displayedItems (toggle l i)).*2 = (displayedItems l).*2.
Proof.
  split; [|split; [|split]].
  - unfold remove, toggle, JS.filter, JS.map. generalize 0 as k.
    induction l as [|x l IH]; intros k; [done|].
    cbn [JS.map_from JS.filter_from].
    destruct (k =? i) eqn:Hk; cbn [negb]; [apply IH|]. by rewrite IH.
  - unfold toggle, JS.map. generalize 0 as k.
    induction l as [|x l IH]; intros k; [done|].
    cbn [JS.map_from]. rewrite IH. f_equal.
    by destruct (k =? i), (k =? j).
  - intros task. apply originalIndex_toggle.
  - rewrite !displayedItems_fmap, <- !list_fmap_compose.
    apply list_eq_Forall2, Forall2_fmap.
    pose proof (toggle_display_related l i) as H.
    eapply Forall2_flip, Forall2_impl; [exact H|].
    intros a b Hab. cbn. rewrite originalIndex_toggle.
    unfold originalIndex. by destruct Hab as [->| ->].
Qed.
